(** * ImbalancedDatasetSampler

    A shallow embedding of [ImbalancedDatasetSampler.py]: the constructor
    ([__init__]), the index construction ([__build_indices]), iteration
    ([__iter__]) and [__len__], followed by the properties of the
    specification that concern them.

    Modelling choices.
    - Python [int] is [Z]; [len] of a list is a [nat] injected into [Z].
    - Python [float] is an IEEE binary64 value, represented by the Standard
      Library's [spec_float] at precision 53 and [emax] 1024; [int * float]
      converts the integer with round-to-nearest-even and multiplies with
      [SFmul]; [int(float)] truncates toward zero.
    - Exceptions are values of [exn]; a computation that may raise returns a
      [result].
    - The [random] module is an interface ([RandomSource]): a generator state
      is threaded through [random.sample] and [random.shuffle]; the
      properties hold for every source that samples without replacement and
      shuffles by permuting ([RandomLaws]). *)

From Stdlib Require Import String.
From Stdlib Require Import ZArith List Lia Bool Permutation.
From Stdlib Require Import Floats.SpecFloat.
Import ListNotations.
Local Open Scope Z_scope.
Set Warnings "-register-all".

(** ** Exceptions and results *)

Inductive exn : Type :=
| PyException          (* raise Exception(...) *)
| RuntimeError
| AssertionError
| NotImplementedError
| ZeroDivisionError
| TypeError
| IndexError
| ValueError
| OverflowError.

Inductive result (A : Type) : Type :=
| Ok (a : A)
| Raise (e : exn).

Arguments Ok {A} a.
Arguments Raise {A} e.

Definition bind {A B : Type} (m : result A) (k : A -> result B) : result B :=
  match m with
  | Ok a => k a
  | Raise e => Raise e
  end.

Notation "x <- m ;; k" := (bind m (fun x => k))
  (at level 61, m at next level, right associativity).

Definition py_assert (b : bool) : result unit :=
  if b then Ok tt else Raise AssertionError.

Definition is_ok {A : Type} (r : result A) : bool :=
  match r with Ok _ => true | Raise _ => false end.

(** ** Python values that occur as labels *)

Inductive pyval : Type :=
| PInt (z : Z)
| PList (l : list pyval).

Definition len {A : Type} (l : list A) : Z := Z.of_nat (length l).

(** [l[i]] for an integer [i]: negative indices count from the end. *)
Definition py_index (n : nat) (i : Z) : result nat :=
  let j := if i <? 0 then i + Z.of_nat n else i in
  if (j <? 0) || (Z.of_nat n <=? j) then Raise IndexError
  else Ok (Z.to_nat j).

Definition py_getitem {A : Type} (l : list A) (i : Z) : result A :=
  j <- py_index (length l) i ;;
  match nth_error l j with
  | Some x => Ok x
  | None => Raise IndexError
  end.

(** [l[j] = x] and [l[j].append(x)] at an index already normalised. *)
Fixpoint set_nth {A : Type} (j : nat) (x : A) (l : list A) : list A :=
  match l, j with
  | [], _ => []
  | _ :: t, O => x :: t
  | h :: t, S j' => h :: set_nth j' x t
  end.

Fixpoint append_at {A : Type} (j : nat) (x : A) (l : list (list A))
  : list (list A) :=
  match l, j with
  | [], _ => []
  | h :: t, O => (h ++ [x]) :: t
  | h :: t, S j' => h :: append_at j' x t
  end.

(** [min(l)] and [max(l)] raise [ValueError] on an empty list. *)
Definition py_min (l : list Z) : result Z :=
  match l with
  | [] => Raise ValueError
  | h :: t => Ok (fold_left Z.min t h)
  end.

Definition py_max (l : list Z) : result Z :=
  match l with
  | [] => Raise ValueError
  | h :: t => Ok (fold_left Z.max t h)
  end.

(** ** Floats *)

Definition prec : Z := 53.
Definition emax : Z := 1024.

Definition float0 : spec_float := S754_zero false.
Definition float1 : spec_float := S754_finite false 4503599627370496 (-52).
Definition float_m1 : spec_float := S754_finite true 4503599627370496 (-52).

(** [float(n)] for an [int]: correctly rounded; too large an [int] raises. *)
Definition py_float_of_int (n : Z) : result spec_float :=
  match binary_normalize prec emax n 0 false with
  | S754_infinity _ => Raise OverflowError
  | x => Ok x
  end.

(** [int(x)] for a [float]: truncation toward zero. *)
Definition py_int_of_float (x : spec_float) : result Z :=
  match x with
  | S754_zero _ => Ok 0
  | S754_infinity _ => Raise OverflowError
  | S754_nan => Raise ValueError
  | S754_finite s m e =>
      let a := if 0 <=? e then Zpos m * 2 ^ e else Zpos m / 2 ^ (- e) in
      Ok (if s then - a else a)
  end.

Definition py_mul_float_int (x : spec_float) (n : Z) : result spec_float :=
  y <- py_float_of_int n ;; Ok (SFmul prec emax x y).

Definition py_mul_int_float (n : Z) (x : spec_float) : result spec_float :=
  y <- py_float_of_int n ;; Ok (SFmul prec emax y x).

(** ** The constructor's arguments *)

(** [sampling_factor]: a [str], a [float] or an [int] ([None] is the absent
    option). *)
Inductive factor : Type :=
| FStr (s : string)
| FFloat (x : spec_float)
| FInt (n : Z).

(** The dataset: its length and the label component of [dataset[i]]. *)
Record dataset : Type := {
  ds_len : nat;
  ds_label : Z -> result pyval
}.

(** A label callback: called with one index, or with no argument. *)
Record callback : Type := {
  call_single : Z -> result pyval;
  call_multi : result (list pyval)
}.

(** ** [__init__], lines 43-49: the sampling factor and its aliases *)

Definition resolve_alias (sampling_factor : option factor) : result factor :=
  match sampling_factor with
  | None => Raise PyException
  | Some (FStr s) =>
      if String.eqb s "oversampling"%string then Ok (FFloat float1)
      else if String.eqb s "undersampling"%string then Ok (FFloat float0)
      else Ok (FStr s)
  | Some f => Ok f
  end.

(** ** [__init__], lines 51-77: where the labels come from *)

Fixpoint collect_labels (cb : Z -> result pyval) (n : nat) : result (list pyval) :=
  match n with
  | O => Ok []
  | S n' =>
      ls <- collect_labels cb n' ;;
      l <- cb (Z.of_nat n') ;;
      Ok (ls ++ [l])
  end.

Definition acquire_labels (ds : dataset) (labels : option (list pyval))
  (callback_get_label : option callback) (callback_type : string)
  : result (list pyval) :=
  match labels, callback_get_label with
  | Some _, Some _ => Raise RuntimeError
  | _, _ =>
      _ <- py_assert (String.eqb callback_type "single"%string
                      || String.eqb callback_type "multi"%string) ;;
      match labels with
      | Some ls => Ok ls
      | None =>
          match callback_get_label with
          | None => collect_labels (ds_label ds) (ds_len ds)
          | Some cb =>
              if String.eqb callback_type "single"%string
              then collect_labels (call_single cb) (ds_len ds)
              else call_multi cb
          end
      end
  end.

(** ** [__init__], lines 79-92: the per-class index lists *)

(** Lines 83-84: [for i, label in enumerate(labels): self.labels[label].append(i)]. *)
Fixpoint flat_loop (i : nat) (labels : list pyval) (classes : list (list pyval))
  : result (list (list pyval)) :=
  match labels with
  | [] => Ok classes
  | PList _ :: _ => Raise TypeError
  | PInt label :: rest =>
      j <- py_index (length classes) label ;;
      flat_loop (S i) rest (append_at j (PInt (Z.of_nat i)) classes)
  end.

(** Lines 88-90: [self.labels[i] = cl[i]; sum += len(self.labels[i])]. *)
Fixpoint per_class_loop (i : nat) (labels : list pyval)
  (classes : list (list pyval)) (sum : Z) : result (list (list pyval) * Z) :=
  match labels with
  | [] => Ok (classes, sum)
  | PInt _ :: _ => Raise TypeError
  | PList cl :: rest =>
      v <- py_getitem cl (Z.of_nat i) ;;
      _ <- py_index (length classes) (Z.of_nat i) ;;
      match v with
      | PInt _ => Raise TypeError
      | PList c => per_class_loop (S i) rest (set_nth i c classes) (sum + len c)
      end
  end.

Definition flat_branch (num_classes : Z) (labels : list pyval)
  : result (list (list pyval)) :=
  flat_loop 0 labels (repeat [] (Z.to_nat num_classes)).

Definition per_class_branch (ds : dataset) (num_classes : Z) (labels : list pyval)
  : result (list (list pyval)) :=
  _ <- py_assert (len labels =? num_classes) ;;
  r <- per_class_loop 0 labels (repeat [] (Z.to_nat num_classes)) 0 ;;
  _ <- py_assert (snd r =? Z.of_nat (ds_len ds)) ;;
  Ok (fst r).

Definition resolve_labels (ds : dataset) (num_classes : Z) (labels : list pyval)
  : result (list (list pyval)) :=
  if Nat.eqb (length labels) (ds_len ds)
  then flat_branch num_classes labels
  else per_class_branch ds num_classes labels.

(** ** [__init__], lines 94-120: the class size *)

Definition interpolation_range (x : spec_float) : bool :=
  SFleb float0 x && SFleb x float1.

Definition undersample_range (x : spec_float) : bool :=
  SFltb float_m1 x && SFltb x float0.

Definition oversample_range (x : spec_float) : bool :=
  SFltb x float_m1.

(** Lines 98-118. *)
Definition compute_class_size (min_size max_size : Z) (sampling_factor : factor)
  : result Z :=
  match sampling_factor with
  | FStr _ => Raise TypeError
  | FFloat x =>
      if interpolation_range x then
        let inter_class_distance := Z.abs (max_size - min_size) in
        p <- py_mul_float_int x inter_class_distance ;;
        k <- py_int_of_float p ;;
        Ok (min_size + k)
      else if undersample_range x then
        p <- py_mul_int_float max_size (SFopp x) ;;
        py_int_of_float p
      else if oversample_range x then
        p <- py_mul_int_float min_size (SFopp x) ;;
        py_int_of_float p
      else Raise NotImplementedError
  | FInt n =>
      if n =? 1 then Raise NotImplementedError else Ok n
  end.

(** Lines 94-118: sizes, then the class size. *)
Definition resolve_class_size {A : Type} (classes : list (list A))
  (sampling_factor : factor) : result Z :=
  let num_labels := map len classes in
  min_size <- py_min num_labels ;;
  max_size <- py_max num_labels ;;
  compute_class_size min_size max_size sampling_factor.

(** Line 120. *)
Definition check_class_size {A : Type} (classes : list (list A)) (class_size : Z)
  : result unit :=
  let num_labels := map len classes in
  min_size <- py_min num_labels ;;
  max_size <- py_max num_labels ;;
  py_assert ((class_size <=? max_size) && (min_size <=? class_size)).

(** ** The [random] module *)

(** [s] is a selection of [k] elements of [l] taken at distinct positions, in
    any order: what [random.sample(l, k)] returns. *)
Definition selection {A : Type} (l : list A) (k : nat) (s : list A) : Prop :=
  length s = k /\ exists rest, Permutation (s ++ rest) l.

(** A random source with state [G]: [rand_sample l k g] for [k <= len(l)]
    and [rand_shuffle l g] return their result and the next state. *)
Class RandomSource (G : Type) : Type := {
  rand_sample : forall {A : Type}, list A -> nat -> G -> list A * G;
  rand_shuffle : forall {A : Type}, list A -> G -> list A * G
}.

(** What the callers rely on: sampling is without replacement, shuffling
    permutes. *)
Class RandomLaws (G : Type) `{RandomSource G} : Prop := {
  rand_sample_selection :
    forall (A : Type) (l : list A) (k : nat) (g : G),
      (k <= length l)%nat -> selection l k (fst (rand_sample l k g));
  rand_shuffle_permutation :
    forall (A : Type) (l : list A) (g : G),
      Permutation l (fst (rand_shuffle l g))
}.

(** [random.sample(population, k)]: [ValueError] when [k] is negative or
    larger than the population. *)
Definition random_sample {G : Type} `{RandomSource G} {A : Type}
  (population : list A) (k : Z) (g : G) : result (list A) * G :=
  if (k <? 0) || (len population <? k) then (Raise ValueError, g)
  else let (s, g') := rand_sample population (Z.to_nat k) g in (Ok s, g').

(** ** [__build_indices] *)

(** [class_l * reps]. *)
Definition py_list_mul {A : Type} (l : list A) (reps : Z) : list A :=
  concat (repeat l (Z.to_nat reps)).

(** Lines 132-142: the number of full repetitions and the sample size. *)
Definition reps_and_sample (class_size num_in_class : Z) : result (Z * Z) :=
  if num_in_class <=? class_size then
    if num_in_class =? 0 then Raise ZeroDivisionError
    else
      let reps := class_size / num_in_class in
      let sample := class_size mod num_in_class in
      _ <- py_assert (sample =? class_size - reps * num_in_class) ;;
      Ok (reps, sample)
  else Ok (0, class_size).

(** Lines 131-144: the emission [new_ind] of one class. *)
Definition class_emission {G : Type} `{RandomSource G} {A : Type}
  (class_size : Z) (class_l : list A) (g : G) : result (list A) * G :=
  match reps_and_sample class_size (len class_l) with
  | Raise e => (Raise e, g)
  | Ok (reps, sample) =>
      match random_sample class_l sample g with
      | (Raise e, g') => (Raise e, g')
      | (Ok s, g') => (Ok (py_list_mul class_l reps ++ s), g')
      end
  end.

(** Lines 129-145: the loop over [range(self.num_classes)]. *)
Fixpoint build_loop {G : Type} `{RandomSource G} {A : Type}
  (labels : list (list A)) (class_size : Z) (cs : list nat)
  (indices : list A) (g : G) : result (list A) * G :=
  match cs with
  | [] => (Ok indices, g)
  | c :: cs' =>
      match nth_error labels c with
      | None => (Raise IndexError, g)
      | Some class_l =>
          match class_emission class_size class_l g with
          | (Raise e, g') => (Raise e, g')
          | (Ok new_ind, g') =>
              build_loop labels class_size cs' (indices ++ new_ind) g'
          end
      end
  end.

Definition build_indices {G : Type} `{RandomSource G} {A : Type}
  (num_classes : Z) (labels : list (list A)) (class_size : Z) (g : G)
  : result (list A) * G :=
  match build_loop labels class_size (seq 0 (Z.to_nat num_classes)) [] g with
  | (Raise e, g') => (Raise e, g')
  | (Ok indices, g') =>
      if len indices =? class_size * num_classes then (Ok indices, g')
      else (Raise AssertionError, g')
  end.

(** ** The sampler object and [__init__] *)

Record sampler : Type := {
  num_classes : Z;
  shuffle : bool;
  labels : list (list pyval);
  class_size : Z;
  indices : list pyval
}.

(** Lines 43-120: everything before the indices are built. *)
Definition prepare (ds : dataset) (num_classes : Z)
  (sampling_factor : option factor) (labels : option (list pyval))
  (callback_get_label : option callback) (callback_type : string)
  : result (list (list pyval) * Z) :=
  sampling_factor <- resolve_alias sampling_factor ;;
  labels <- acquire_labels ds labels callback_get_label callback_type ;;
  classes <- resolve_labels ds num_classes labels ;;
  class_size <- resolve_class_size classes sampling_factor ;;
  _ <- check_class_size classes class_size ;;
  Ok (classes, class_size).

Definition init {G : Type} `{RandomSource G} (ds : dataset) (num_classes : Z)
  (shuffle : bool) (sampling_factor : option factor)
  (labels : option (list pyval)) (callback_get_label : option callback)
  (callback_type : string) (g : G) : result sampler * G :=
  match prepare ds num_classes sampling_factor labels callback_get_label
          callback_type with
  | Raise e => (Raise e, g)
  | Ok (classes, class_size) =>
      match build_indices num_classes classes class_size g with
      | (Raise e, g') => (Raise e, g')
      | (Ok indices, g') =>
          (Ok {| num_classes := num_classes; shuffle := shuffle;
                 labels := classes; class_size := class_size;
                 indices := indices |}, g')
      end
  end.

(** ** [__iter__] and [__len__] *)

(** [__iter__] shuffles the sampler's own list in place when asked to, and
    returns a list iterator over that same list: a position in it. *)
Definition iter {G : Type} `{RandomSource G} (self : sampler) (g : G)
  : nat * sampler * G :=
  if shuffle self then
    let (l, g') := rand_shuffle (indices self) g in
    (O, {| num_classes := num_classes self; shuffle := shuffle self;
           labels := labels self; class_size := class_size self;
           indices := l |}, g')
  else (O, self, g).

(** [next(it)] on the list iterator: the item and the advanced iterator, or
    [None] for [StopIteration]. *)
Definition next (self : sampler) (it : nat) : option (pyval * nat) :=
  match nth_error (indices self) it with
  | Some x => Some (x, S it)
  | None => None
  end.

(** The items a consumer gets by calling [next] until [StopIteration]. *)
Fixpoint drain (fuel : nat) (self : sampler) (it : nat) : option (list pyval) :=
  match next self it with
  | None => Some []
  | Some (x, it') =>
      match fuel with
      | O => None
      | S fuel' =>
          match drain fuel' self it' with
          | Some xs => Some (x :: xs)
          | None => None
          end
      end
  end.

Definition sampler_len (self : sampler) : Z :=
  class_size self * num_classes self.

(** One iteration pass of a consumer: [__iter__], then [next] until
    [StopIteration]. *)
Definition pass {G : Type} `{RandomSource G} (self : sampler) (g : G)
  : option (list pyval) * sampler * G :=
  let '(it, self', g') := iter self g in
  (drain (length (indices self')) self' it, self', g').

(** Lines 51-92 alone: the partition the constructor resolves. *)
Definition resolved_partition (ds : dataset) (num_classes : Z)
  (labels : option (list pyval)) (callback_get_label : option callback)
  (callback_type : string) : result (list (list pyval)) :=
  labels <- acquire_labels ds labels callback_get_label callback_type ;;
  resolve_labels ds num_classes labels.

(** ** A concrete random source

    A linear congruential generator; [sample] removes one randomly chosen
    element of the remaining pool at a time, [shuffle] samples everything. *)

Definition lcg_next (g : Z) : Z := (g * 1103515245 + 12345) mod 2147483648.

Fixpoint lcg_sample {A : Type} (l : list A) (k : nat) (g : Z) : list A * Z :=
  match k with
  | O => ([], g)
  | S k' =>
      let j := Z.to_nat (g mod len l) in
      match nth_error l j with
      | None => ([], g)
      | Some x =>
          let (s, g') := lcg_sample (firstn j l ++ skipn (S j) l) k' (lcg_next g) in
          (x :: s, g')
      end
  end.

Definition lcg_shuffle {A : Type} (l : list A) (g : Z) : list A * Z :=
  lcg_sample l (length l) g.

#[export] Instance lcg_source : RandomSource Z := {
  rand_sample := @lcg_sample;
  rand_shuffle := @lcg_shuffle
}.

(** ** Notions used to state the properties *)

(** [e] is an emission of a class [class_l] for the class size [class_size]:
    the full repetitions followed by a sample of the remainder. *)
Definition emission_of {A : Type} (class_size : Z) (class_l e : list A) : Prop :=
  exists reps sample s,
    reps_and_sample class_size (len class_l) = Ok (reps, sample) /\
    0 <= sample /\
    selection class_l (Z.to_nat sample) s /\
    e = py_list_mul class_l reps ++ s.

(** [emissions] holds one emission per class id of [cs], in that order. *)
Definition emissions_of {A : Type} (labels : list (list A)) (class_size : Z)
  (cs : list nat) (emissions : list (list A)) : Prop :=
  Forall2 (fun c e => exists class_l,
               nth_error labels c = Some class_l /\
               emission_of class_size class_l e) cs emissions.

(** The class a flat label denotes among [n] classes. *)
Definition class_of (n : nat) (label : pyval) : option nat :=
  match label with
  | PInt z => match py_index n z with Ok j => Some j | Raise _ => None end
  | PList _ => None
  end.

Definition is_class (n k : nat) (label : pyval) : bool :=
  match class_of n label with
  | Some j => Nat.eqb j k
  | None => false
  end.

(** The dataset indices [base, base + len(labels)) whose label denotes
    class [k], ascending. *)
Fixpoint indices_of_class (n k : nat) (base : nat) (labels : list pyval)
  : list pyval :=
  match labels with
  | [] => []
  | label :: rest =>
      if is_class n k label
      then PInt (Z.of_nat base) :: indices_of_class n k (S base) rest
      else indices_of_class n k (S base) rest
  end.

(** Mapping a yielded dataset index back to its class, through the flat
    labels [ls]. *)
Definition label_class (n : nat) (ls : list pyval) (v : pyval) : option nat :=
  match v with
  | PInt z =>
      if z <? 0 then None
      else match nth_error ls (Z.to_nat z) with
           | Some label => class_of n label
           | None => None
           end
  | PList _ => None
  end.

Definition in_class (n : nat) (ls : list pyval) (c : nat) (v : pyval) : bool :=
  match label_class n ls v with
  | Some j => Nat.eqb j c
  | None => false
  end.

(** ** Notions used to reason about binary64 rounding *)

(** The number of low bits [binary_round_aux] drops from a mantissa [m] at
    exponent [e]. *)
Definition shift_amount (m e : Z) : Z :=
  Z.max 0 (fexp prec emax (Zdigits2 m + e) - e).

(** The float made of a rounded mantissa and its exponent: the last step of
    [binary_round_aux]. *)
Definition float_of_rounded (s : bool) (m e : Z) : spec_float :=
  match m with
  | Z0 => S754_zero s
  | Zpos p => if e <=? emax - prec then S754_finite s p e else S754_infinity s
  | Zneg _ => S754_nan
  end.

(** [floor(x)] for a finite float. *)
Definition float_floor (x : spec_float) : option Z :=
  match x with
  | S754_zero _ => Some 0
  | S754_finite s m e =>
      let z := if s then Zneg m else Zpos m in
      Some (if 0 <=? e then z * 2 ^ e else z / 2 ^ (- e))
  | _ => None
  end.

(** The exact value of [n * x] for an integer [n] and a finite float
    [x = (-1)^s * m * 2^e], rounded down and rounded up to an integer. Nothing
    is rounded to binary64 here. *)
Definition scaled_floor (n : Z) (x : spec_float) : option Z :=
  match x with
  | S754_zero _ => Some 0
  | S754_finite s m e =>
      let z := n * (if s then Zneg m else Zpos m) in
      Some (if 0 <=? e then z * 2 ^ e else z / 2 ^ (- e))
  | _ => None
  end.

Definition scaled_ceil (n : Z) (x : spec_float) : option Z :=
  match x with
  | S754_zero _ => Some 0
  | S754_finite s m e =>
      let z := n * (if s then Zneg m else Zpos m) in
      Some (if 0 <=? e then z * 2 ^ e else - ((- z) / 2 ^ (- e)))
  | _ => None
  end.

(** The specification's class size for an interpolation factor [f], as the
    specification writes it: [min_size + floor(f * (max_size - min_size))],
    the product being the exact product of the value of [f] and the
    integer. *)
Definition interpolated_size (min_size max_size : Z) (f : spec_float)
  : option Z :=
  option_map (Z.add min_size) (scaled_floor (max_size - min_size) f).

(** The same formula with the product rounded to binary64 (to nearest, ties
    to even) before the floor is taken. *)
Definition rounded_interpolated_size (min_size max_size : Z) (f : spec_float)
  : option Z :=
  match py_float_of_int (max_size - min_size) with
  | Ok d => option_map (Z.add min_size) (float_floor (SFmul prec emax f d))
  | Raise _ => None
  end.

(** ** Concrete inputs *)

Definition ds8 : dataset := {| ds_len := 8; ds_label := fun _ => Raise IndexError |}.
Definition flat8 : list pyval := map PInt [0;0;0;1;1;1;1;1].
Definition perclass8 : list pyval :=
  [PList (map PInt [0;1;2]); PList (map PInt [3;4;5;6;7])].

Definition ds2 : dataset := {| ds_len := 2; ds_label := fun _ => Raise IndexError |}.

Definition classes8 : list (list pyval) :=
  [map PInt [0; 1; 2]; map PInt [3; 4; 5; 6; 7]].
Definition float_half : spec_float := S754_finite false 4503599627370496 (-53).

Definition float_07 : spec_float := S754_finite false 6305039478318694 (-53).

(** ** Notions and inputs for the further properties *)

(** A dataset and a callback that hold the labels [flat8]. *)
Definition ds8_labelled : dataset :=
  {| ds_len := 8; ds_label := fun i => py_getitem flat8 i |}.
Definition cb8 : callback :=
  {| call_single := fun i => py_getitem flat8 i; call_multi := Ok flat8 |}.
(** A callback that fails at index 3. *)
Definition cb_fails_at_3 : callback :=
  {| call_single := fun i => if i =? 3 then Raise ValueError else Ok (PInt 0);
     call_multi := Raise TypeError |}.

(** The dataset indices [start, start + n) as Python integers. *)
Definition index_range (start n : nat) : list pyval :=
  map (fun k => PInt (Z.of_nat k)) (seq start n).

(** A flat label that [self.labels[label]] accepts among [n] classes. *)
Definition valid_label (n : nat) (v : pyval) : Prop :=
  exists z, v = PInt z /\ - Z.of_nat n <= z < Z.of_nat n.

(** A labels input the per-class branch accepts for [ds8]: the class lists
    sit on the diagonal, [labels[i][i]]. *)
Definition diagonal8 : list pyval :=
  [PList [PList (map PInt [0; 1; 2])];
   PList [PList []; PList (map PInt [3; 4; 5; 6; 7])]].

Definition float_1_5 : spec_float := S754_finite false 6755399441055744 (-52).

(** The sampler and the generator after [n] complete iteration passes. *)
Fixpoint run_passes {G : Type} `{RandomSource G} (n : nat) (self : sampler)
  (g : G) : sampler * G :=
  match n with
  | O => (self, g)
  | S n' => let '(_, self', g') := pass self g in run_passes n' self' g'
  end.

(** The sampler built from [flat8] with factor [0.0], shuffle enabled and
    the generator state 42. *)
Definition sampler8 : sampler :=
  {| num_classes := 2; shuffle := true; labels := classes8; class_size := 3;
     indices := map PInt [0; 1; 2; 5; 7; 6] |}.

(** * Properties *)

(** ** The concrete random source satisfies the interface *)

Lemma remove_nth_permutation {A : Type} (l : list A) (j : nat) (x : A) :
  nth_error l j = Some x ->
  Permutation (x :: firstn j l ++ skipn (S j) l) l.
Proof.
  revert j; induction l as [|h t IH]; intros [|j] Hj; simpl in *; try discriminate.
  - injection Hj as ->. reflexivity.
  - rewrite perm_swap. constructor. now apply IH.
Qed.

Lemma remove_nth_length {A : Type} (l : list A) (j : nat) :
  (j < length l)%nat ->
  length (firstn j l ++ skipn (S j) l) = pred (length l).
Proof.
  intros Hj. rewrite length_app, length_firstn, length_skipn. lia.
Qed.

Lemma lcg_sample_selection {A : Type} (k : nat) :
  forall (l : list A) (g : Z),
    (k <= length l)%nat -> selection l k (fst (lcg_sample l k g)).
Proof.
  induction k as [|k IH]; intros l g Hk.
  - split; [reflexivity|]. exists l. reflexivity.
  - cbn [lcg_sample].
    set (j := Z.to_nat (g mod len l)).
    assert (Hj : (j < length l)%nat).
    { subst j. unfold len.
      pose proof (Z.mod_pos_bound g (Z.of_nat (length l))). lia. }
    destruct (nth_error l j) as [x|] eqn:Hx.
    2:{ apply nth_error_None in Hx. lia. }
    pose proof (remove_nth_length l j Hj) as Hlen'.
    pose proof (remove_nth_permutation l j x Hx) as Hperm'.
    set (l' := firstn j l ++ skipn (S j) l) in *.
    destruct (IH l' (lcg_next g)) as [Hlen [rest Hperm]]; [lia|].
    destruct (lcg_sample l' k (lcg_next g)) as [s g'].
    cbn [fst] in *.
    split; [cbn [length]; now rewrite Hlen|].
    exists rest. cbn [app]. now rewrite Hperm.
Qed.

Lemma lcg_shuffle_permutation {A : Type} (l : list A) (g : Z) :
  Permutation l (fst (lcg_shuffle l g)).
Proof.
  destruct (lcg_sample_selection (length l) l g (le_n _)) as [Hlen [rest Hperm]].
  unfold lcg_shuffle.
  assert (rest = []) as ->.
  { apply Permutation_length in Hperm. rewrite length_app in Hperm.
    destruct rest; [reflexivity | simpl in Hperm; lia]. }
  rewrite app_nil_r in Hperm. now symmetry.
Qed.

#[export] Instance lcg_laws : RandomLaws Z.
Proof.
  split.
  - intros A l k g Hk. now apply lcg_sample_selection.
  - intros A l g. apply lcg_shuffle_permutation.
Qed.

(** ** Lists and sizes *)

Lemma len_nonneg {A : Type} (l : list A) : 0 <= len l.
Proof. unfold len. lia. Qed.

Lemma len_app {A : Type} (l1 l2 : list A) : len (l1 ++ l2) = len l1 + len l2.
Proof. unfold len. rewrite length_app. lia. Qed.

Lemma len_py_list_mul {A : Type} (l : list A) (reps : Z) :
  0 <= reps -> len (py_list_mul l reps) = len l * reps.
Proof.
  intros Hr. unfold py_list_mul.
  rewrite <- (Z2Nat.id reps) at 2 by exact Hr.
  induction (Z.to_nat reps) as [|n IH]; cbn [repeat concat].
  - unfold len. simpl. lia.
  - rewrite len_app, IH. lia.
Qed.

Lemma in_py_list_mul {A : Type} (l : list A) (reps : Z) (x : A) :
  In x (py_list_mul l reps) -> In x l.
Proof.
  unfold py_list_mul. induction (Z.to_nat reps) as [|n IH]; cbn [repeat concat].
  - intros [].
  - rewrite in_app_iff. tauto.
Qed.

Lemma fold_min_le (t : list Z) : forall h, fold_left Z.min t h <= h.
Proof.
  induction t as [|a t IH]; intros h; cbn [fold_left]; [lia|].
  specialize (IH (Z.min h a)). lia.
Qed.

Lemma fold_min_in (t : list Z) :
  forall h z, In z (h :: t) -> fold_left Z.min t h <= z.
Proof.
  induction t as [|a t IH]; intros h z Hz; cbn [fold_left].
  - destruct Hz as [<-|[]]. lia.
  - destruct Hz as [<-|[<-|Hz]].
    + pose proof (fold_min_le t (Z.min h a)). lia.
    + pose proof (fold_min_le t (Z.min h a)). lia.
    + apply IH. now right.
Qed.

Lemma fold_max_ge (t : list Z) : forall h, h <= fold_left Z.max t h.
Proof.
  induction t as [|a t IH]; intros h; cbn [fold_left]; [lia|].
  specialize (IH (Z.max h a)). lia.
Qed.

Lemma fold_max_in (t : list Z) :
  forall h z, In z (h :: t) -> z <= fold_left Z.max t h.
Proof.
  induction t as [|a t IH]; intros h z Hz; cbn [fold_left].
  - destruct Hz as [<-|[]]. lia.
  - destruct Hz as [<-|[<-|Hz]].
    + pose proof (fold_max_ge t (Z.max h a)). lia.
    + pose proof (fold_max_ge t (Z.max h a)). lia.
    + apply IH. now right.
Qed.

Lemma fold_min_mem (t : list Z) : forall h, In (fold_left Z.min t h) (h :: t).
Proof.
  induction t as [|a t IH]; intros h; cbn [fold_left]; [now left|].
  destruct (IH (Z.min h a)) as [Heq|Hin].
  - rewrite <- Heq. destruct (Z.min_spec h a) as [[_ ->]|[_ ->]];
      [now left | right; now left].
  - right; now right.
Qed.

Lemma fold_max_mem (t : list Z) : forall h, In (fold_left Z.max t h) (h :: t).
Proof.
  induction t as [|a t IH]; intros h; cbn [fold_left]; [now left|].
  destruct (IH (Z.max h a)) as [Heq|Hin].
  - rewrite <- Heq. destruct (Z.max_spec h a) as [[_ ->]|[_ ->]];
      [right; now left | now left].
  - right; now right.
Qed.

Lemma py_min_spec (l : list Z) (m : Z) :
  py_min l = Ok m -> In m l /\ forall z, In z l -> m <= z.
Proof.
  destruct l as [|h t]; cbn [py_min]; [discriminate|].
  intros [= <-]. split; [apply fold_min_mem | apply fold_min_in].
Qed.

Lemma py_max_spec (l : list Z) (m : Z) :
  py_max l = Ok m -> In m l /\ forall z, In z l -> z <= m.
Proof.
  destruct l as [|h t]; cbn [py_max]; [discriminate|].
  intros [= <-]. split; [apply fold_max_mem | apply fold_max_in].
Qed.

Lemma py_min_le_max (l : list Z) (mn mx : Z) :
  py_min l = Ok mn -> py_max l = Ok mx -> mn <= mx.
Proof.
  intros Hmn Hmx. destruct (py_min_spec _ _ Hmn) as [Hin _].
  destruct (py_max_spec _ _ Hmx) as [_ Hle]. now apply Hle.
Qed.

(** ** One class's emission *)

Section Emission.
Context {G : Type} `{RandomLaws G} {A : Type}.

Lemma random_sample_ok (population : list A) (k : Z) (g : G) :
  0 <= k <= len population ->
  exists s g', random_sample population k g = (Ok s, g') /\
               selection population (Z.to_nat k) s.
Proof.
  intros Hk. unfold random_sample.
  replace ((k <? 0) || (len population <? k)) with false
    by (symmetry; apply orb_false_iff; split; lia).
  pose proof (rand_sample_selection A population (Z.to_nat k) g) as Hs.
  destruct (rand_sample population (Z.to_nat k) g) as [s g'].
  exists s, g'. split; [reflexivity|]. apply Hs. unfold len in Hk. lia.
Qed.

Lemma random_sample_inv (population : list A) (k : Z) (g g' : G) (s : list A) :
  random_sample population k g = (Ok s, g') ->
  0 <= k <= len population /\ selection population (Z.to_nat k) s.
Proof.
  unfold random_sample.
  destruct ((k <? 0) || (len population <? k)) eqn:Hb; [discriminate|].
  apply orb_false_iff in Hb. destruct Hb as [H1 H2].
  pose proof (rand_sample_selection A population (Z.to_nat k) g) as Hs.
  destruct (rand_sample population (Z.to_nat k) g) as [s0 g0].
  intros [= <- <-]. split; [lia|]. apply Hs. unfold len in *. lia.
Qed.

Lemma class_emission_inv (class_size : Z) (class_l e : list A) (g g' : G) :
  class_emission class_size class_l g = (Ok e, g') ->
  emission_of class_size class_l e.
Proof.
  unfold class_emission.
  destruct (reps_and_sample class_size (len class_l)) as [[reps sample]|] eqn:Hrs;
    [|discriminate].
  destruct (random_sample class_l sample g) as [[s|] g0] eqn:Hs; [|discriminate].
  intros [= <- <-]. apply random_sample_inv in Hs. destruct Hs as [Hk Hsel].
  exists reps, sample, s. repeat split; try tauto; try lia. apply Hsel. apply Hsel.
Qed.

Lemma class_emission_ok (class_size : Z) (class_l : list A) (g : G) :
  0 <= class_size -> class_l <> [] ->
  exists e g', class_emission class_size class_l g = (Ok e, g').
Proof.
  intros Hcs Hne. unfold class_emission, reps_and_sample.
  assert (Hn : 0 < len class_l).
  { pose proof (len_nonneg class_l). destruct class_l; [congruence|].
    unfold len. simpl. lia. }
  destruct (len class_l <=? class_size) eqn:Hle.
  - replace (len class_l =? 0) with false by (symmetry; lia).
    pose proof (Z.div_mod class_size (len class_l)) as Hdm.
    pose proof (Z.mod_pos_bound class_size (len class_l) Hn) as Hb.
    replace (class_size mod len class_l =?
             class_size - class_size / len class_l * len class_l) with true
      by (symmetry; lia).
    cbn [py_assert bind].
    destruct (random_sample_ok class_l (class_size mod len class_l) g)
      as (s & g' & -> & _); [lia|]. eauto.
  - destruct (random_sample_ok class_l class_size g) as (s & g' & -> & _);
      [lia|]. eauto.
Qed.

Lemma class_emission_empty (class_size : Z) (g : G) :
  0 <= class_size ->
  class_emission class_size (@nil A) g = (Raise ZeroDivisionError, g).
Proof.
  intros Hcs. unfold class_emission, reps_and_sample. cbn [len length Z.of_nat].
  replace (0 <=? class_size) with true by (symmetry; lia). reflexivity.
Qed.
End Emission.

Lemma reps_and_sample_inv (class_size n reps sample : Z) :
  0 <= n ->
  reps_and_sample class_size n = Ok (reps, sample) ->
  (0 < n <= class_size /\ reps = class_size / n /\ sample = class_size mod n)
  \/ (class_size < n /\ reps = 0 /\ sample = class_size).
Proof.
  intros Hn. unfold reps_and_sample.
  destruct (n <=? class_size) eqn:Hle.
  - destruct (n =? 0) eqn:Hz; [discriminate|].
    destruct (class_size mod n =? class_size - class_size / n * n); cbn;
      [|discriminate].
    intros [= <- <-]. left. lia.
  - intros [= <- <-]. right. lia.
Qed.

Lemma selection_in {A : Type} (l s : list A) (k : nat) (x : A) :
  selection l k s -> In x s -> In x l.
Proof.
  intros [_ [rest Hperm]] Hx. apply (Permutation_in x Hperm).
  apply in_or_app. now left.
Qed.

Lemma selection_NoDup {A : Type} (l s : list A) (k : nat) :
  selection l k s -> NoDup l -> NoDup s.
Proof.
  intros [_ [rest Hperm]] Hnd. symmetry in Hperm.
  apply (Permutation_NoDup Hperm) in Hnd. now apply NoDup_app_remove_r in Hnd.
Qed.

Lemma selection_none {A : Type} (l s : list A) : selection l 0 s -> s = [].
Proof. intros [Hlen _]. now apply length_zero_iff_nil. Qed.

Lemma emission_len {A : Type} (class_size : Z) (class_l e : list A) :
  emission_of class_size class_l e -> len e = class_size.
Proof.
  intros (reps & sample & s & Hrs & Hs0 & [Hlen _] & ->).
  apply reps_and_sample_inv in Hrs; [|apply len_nonneg].
  rewrite len_app. unfold len at 2. rewrite Hlen, Z2Nat.id by exact Hs0.
  destruct Hrs as [(Hn & -> & ->)|(Hn & -> & ->)].
  - rewrite len_py_list_mul by (apply Z.div_pos; lia).
    pose proof (Z.div_mod class_size (len class_l)). lia.
  - unfold py_list_mul. simpl. unfold len. simpl. lia.
Qed.

Lemma emission_in {A : Type} (class_size : Z) (class_l e : list A) (x : A) :
  emission_of class_size class_l e -> In x e -> In x class_l.
Proof.
  intros (reps & sample & s & _ & _ & Hsel & ->) Hx.
  apply in_app_or in Hx. destruct Hx as [Hx|Hx].
  - now apply in_py_list_mul in Hx.
  - now apply (selection_in _ _ _ _ Hsel).
Qed.

(** ** The index construction *)

Lemma len_concat_emissions {A : Type} (labels : list (list A)) (class_size : Z)
  (cs : list nat) (emissions : list (list A)) :
  emissions_of labels class_size cs emissions ->
  len (concat emissions) = class_size * len cs.
Proof.
  induction 1 as [|c e cs' es' (class_l & _ & He) _ IH]; cbn [concat].
  - unfold len. simpl. lia.
  - rewrite len_app, IH, (emission_len _ _ _ He). unfold len. cbn [length]. lia.
Qed.

Section Build.
Context {G : Type} `{RandomLaws G} {A : Type}.

Lemma build_loop_inv (labels : list (list A)) (class_size : Z) (cs : list nat) :
  forall (acc out : list A) (g g' : G),
    build_loop labels class_size cs acc g = (Ok out, g') ->
    exists emissions,
      out = acc ++ concat emissions /\
      emissions_of labels class_size cs emissions.
Proof.
  induction cs as [|c cs IH]; intros acc out g g'; cbn [build_loop].
  - intros [= <- <-]. exists []. split; [now rewrite app_nil_r | constructor].
  - destruct (nth_error labels c) as [class_l|] eqn:Hc; [|discriminate].
    destruct (class_emission class_size class_l g) as [[e|] g0] eqn:He;
      [|discriminate].
    intros Hloop. apply IH in Hloop. destruct Hloop as (es & -> & Hes).
    exists (e :: es). split; [cbn [concat]; now rewrite app_assoc|].
    constructor; [|exact Hes]. exists class_l. split; [exact Hc|].
    now apply class_emission_inv in He.
Qed.

Lemma build_loop_ok (labels : list (list A)) (class_size : Z) (cs : list nat) :
  0 <= class_size ->
  (forall c, In c cs -> exists class_l,
        nth_error labels c = Some class_l /\ class_l <> []) ->
  forall (acc : list A) (g : G),
  exists out g', build_loop labels class_size cs acc g = (Ok out, g').
Proof.
  intros Hcs. induction cs as [|c cs IH]; intros Hall acc g; cbn [build_loop].
  - eauto.
  - destruct (Hall c (or_introl eq_refl)) as (class_l & -> & Hne).
    destruct (class_emission_ok class_size class_l g Hcs Hne) as (e & g0 & ->).
    apply IH. intros c' Hc'. apply Hall. now right.
Qed.

Lemma build_loop_empty_class (labels : list (list A)) (class_size : Z)
  (cs : list nat) :
  0 <= class_size ->
  (forall c, In c cs -> (c < length labels)%nat) ->
  (exists c, In c cs /\ nth_error labels c = Some []) ->
  forall (acc : list A) (g : G),
  exists g', build_loop labels class_size cs acc g = (Raise ZeroDivisionError, g').
Proof.
  intros Hcs. induction cs as [|c cs IH]; intros Hlt Hex acc g; cbn [build_loop].
  - destruct Hex as (c & [] & _).
  - destruct (nth_error labels c) as [class_l|] eqn:Hc.
    2:{ apply nth_error_None in Hc. specialize (Hlt c (or_introl eq_refl)). lia. }
    destruct class_l as [|a class_l].
    + rewrite class_emission_empty by exact Hcs. eauto.
    + destruct (class_emission_ok class_size (a :: class_l) g Hcs) as (e & g0 & ->);
        [discriminate|].
      apply IH.
      * intros c' Hc'. apply Hlt. now right.
      * destruct Hex as (c' & [<-|Hin] & Hc'); [congruence|eauto].
Qed.

Lemma build_indices_inv (num_classes : Z) (labels : list (list A))
  (class_size : Z) (g g' : G) (out : list A) :
  build_indices num_classes labels class_size g = (Ok out, g') ->
  len out = class_size * num_classes /\
  exists emissions,
    out = concat emissions /\
    emissions_of labels class_size (seq 0 (Z.to_nat num_classes)) emissions.
Proof.
  unfold build_indices.
  destruct (build_loop _ _ _ _ _) as [[indices|] g0] eqn:Hloop; [|discriminate].
  destruct (len indices =? class_size * num_classes) eqn:Hlen; [|discriminate].
  intros [= <- <-]. split; [lia|].
  apply build_loop_inv in Hloop. destruct Hloop as (es & -> & Hes).
  exists es. split; [reflexivity | exact Hes].
Qed.

Lemma build_indices_ok (num_classes : Z) (labels : list (list A))
  (class_size : Z) (g : G) :
  0 <= class_size -> 0 <= num_classes ->
  length labels = Z.to_nat num_classes ->
  ~ In [] labels ->
  exists out g', build_indices num_classes labels class_size g = (Ok out, g').
Proof.
  intros Hcs Hnc Hlen Hne. unfold build_indices.
  destruct (build_loop_ok labels class_size (seq 0 (Z.to_nat num_classes)) Hcs)
    with (acc := @nil A) (g := g) as (out & g' & Hloop).
  { intros c Hc. apply in_seq in Hc.
    destruct (nth_error labels c) as [class_l|] eqn:Hnth.
    - exists class_l. split; [reflexivity|]. intros ->.
      apply Hne. eapply nth_error_In; eauto.
    - apply nth_error_None in Hnth. lia. }
  rewrite Hloop. pose proof Hloop as Hinv. apply build_loop_inv in Hinv.
  destruct Hinv as (es & -> & Hes). cbn [app].
  rewrite (len_concat_emissions _ _ _ _ Hes). unfold len at 1.
  rewrite length_seq, Z2Nat.id, Z.eqb_refl by exact Hnc. eauto.
Qed.

Lemma build_indices_empty_class (num_classes : Z) (labels : list (list A))
  (class_size : Z) (g : G) :
  0 <= class_size ->
  length labels = Z.to_nat num_classes ->
  In [] labels ->
  exists g', build_indices num_classes labels class_size g
             = (Raise ZeroDivisionError, g').
Proof.
  intros Hcs Hlen Hin. unfold build_indices.
  destruct (build_loop_empty_class labels class_size
              (seq 0 (Z.to_nat num_classes)) Hcs)
    with (acc := @nil A) (g := g) as (g' & ->).
  - intros c Hc. apply in_seq in Hc. lia.
  - apply In_nth_error in Hin. destruct Hin as (c & Hc). exists c.
    split; [|exact Hc]. apply in_seq.
    assert (c < length labels)%nat by (apply nth_error_Some; congruence). lia.
  - eauto.
Qed.
End Build.

(** ** Label resolution *)

Lemma length_set_nth {A : Type} (j : nat) (x : A) (l : list A) :
  length (set_nth j x l) = length l.
Proof.
  revert j; induction l as [|h t IH]; intros [|j]; cbn; auto.
Qed.

Lemma length_append_at {A : Type} (j : nat) (x : A) (l : list (list A)) :
  length (append_at j x l) = length l.
Proof.
  revert j; induction l as [|h t IH]; intros [|j]; cbn; auto.
Qed.

Lemma nth_error_append_at {A : Type} (j k : nat) (x : A) (l : list (list A)) :
  nth_error (append_at j x l) k =
  if Nat.eqb j k then option_map (fun c => c ++ [x]) (nth_error l k)
  else nth_error l k.
Proof.
  revert j k; induction l as [|h t IH]; intros j k.
  - destruct j, k; cbn; try reflexivity. now destruct (Nat.eqb j k).
  - destruct j, k; cbn; try reflexivity. apply IH.
Qed.

Lemma flat_loop_length (labels : list pyval) :
  forall (i : nat) (classes out : list (list pyval)),
    flat_loop i labels classes = Ok out -> length out = length classes.
Proof.
  induction labels as [|[label|l] rest IH]; intros i classes out; cbn [flat_loop].
  - now intros [= <-].
  - destruct (py_index (length classes) label) as [j|]; cbn [bind]; [|discriminate].
    intros Hl. apply IH in Hl. now rewrite length_append_at in Hl.
  - discriminate.
Qed.

Lemma flat_loop_spec (labels : list pyval) :
  forall (i : nat) (classes out : list (list pyval)),
    flat_loop i labels classes = Ok out ->
    forall (k : nat) (c : list pyval),
      nth_error classes k = Some c ->
      nth_error out k = Some (c ++ indices_of_class (length classes) k i labels).
Proof.
  induction labels as [|[label|l] rest IH]; intros i classes out; cbn [flat_loop].
  - intros [= <-] k c Hk. cbn. now rewrite app_nil_r.
  - destruct (py_index (length classes) label) as [j|] eqn:Hj; cbn [bind];
      [|discriminate].
    intros Hl k c Hk. cbn [indices_of_class]. unfold is_class, class_of.
    rewrite Hj.
    specialize (IH _ _ _ Hl k). rewrite nth_error_append_at, Hk in IH.
    rewrite length_append_at in IH.
    destruct (Nat.eqb j k); cbn [option_map] in IH.
    + rewrite (IH _ eq_refl), <- app_assoc. reflexivity.
    + now apply IH.
  - discriminate.
Qed.


Lemma nth_error_repeat_nil {A : Type} (n k : nat) :
  (k < n)%nat -> nth_error (repeat (@nil A) n) k = Some [].
Proof.
  revert k; induction n as [|n IH]; intros [|k] Hk; cbn; try lia; auto.
  apply IH. lia.
Qed.

Lemma flat_branch_spec (num_classes : Z) (labels : list pyval)
  (classes : list (list pyval)) :
  flat_branch num_classes labels = Ok classes ->
  length classes = Z.to_nat num_classes /\
  forall k, (k < Z.to_nat num_classes)%nat ->
            nth_error classes k
            = Some (indices_of_class (Z.to_nat num_classes) k 0 labels).
Proof.
  unfold flat_branch. intros Hl. split.
  - apply flat_loop_length in Hl. now rewrite repeat_length in Hl.
  - intros k Hk.
    pose proof (flat_loop_spec _ _ _ _ Hl k [] (nth_error_repeat_nil _ _ Hk)) as Hs.
    now rewrite repeat_length in Hs.
Qed.

Lemma per_class_loop_length (labels : list pyval) :
  forall (i : nat) (classes out : list (list pyval)) (sum sum' : Z),
    per_class_loop i labels classes sum = Ok (out, sum') ->
    length out = length classes.
Proof.
  induction labels as [|[z|cl] rest IH]; intros i classes out sum sum';
    cbn [per_class_loop].
  - now intros [= <- _].
  - discriminate.
  - destruct (py_getitem cl (Z.of_nat i)) as [v|]; cbn [bind]; [|discriminate].
    destruct (py_index (length classes) (Z.of_nat i)); cbn [bind]; [|discriminate].
    destruct v as [z|c]; [discriminate|].
    intros Hl. apply IH in Hl. now rewrite length_set_nth in Hl.
Qed.

(** A per-class input whose first inner list holds integers is never
    resolved: line 89 stores the integer [cl[i]] and line 90 takes its
    [len]. *)
Lemma per_class_loop_int_list (i : nat) (xs : list Z) (rest : list pyval)
  (classes : list (list pyval)) (sum : Z) :
  per_class_loop i (PList (map PInt xs) :: rest) classes sum = Raise TypeError
  \/ per_class_loop i (PList (map PInt xs) :: rest) classes sum = Raise IndexError.
Proof.
  cbn [per_class_loop]. unfold py_getitem.
  destruct (py_index (length (map PInt xs)) (Z.of_nat i)) as [j|e] eqn:Hj;
    cbn [bind].
  - destruct (nth_error (map PInt xs) j) as [v|] eqn:Hv; [|now right].
    rewrite nth_error_map in Hv. destruct (nth_error xs j); [|discriminate].
    cbn in Hv. injection Hv as <-. cbn [bind].
    destruct (py_index (length classes) (Z.of_nat i)) as [j'|e'] eqn:Hj';
      cbn [bind]; [now left|].
    unfold py_index in Hj'.
    destruct (_ || _) in Hj'; [|discriminate]. injection Hj' as <-. now right.
  - unfold py_index in Hj.
    destruct (_ || _) in Hj; [|discriminate]. injection Hj as <-. now right.
Qed.

Lemma resolve_labels_length (ds : dataset) (num_classes : Z)
  (labels : list pyval) (classes : list (list pyval)) :
  resolve_labels ds num_classes labels = Ok classes ->
  length classes = Z.to_nat num_classes.
Proof.
  unfold resolve_labels. destruct (Nat.eqb _ _).
  - intros Hf. now apply flat_branch_spec in Hf.
  - unfold per_class_branch.
    destruct (py_assert (len labels =? num_classes)); cbn [bind]; [|discriminate].
    destruct (per_class_loop _ _ _ _) as [[out sum]|] eqn:Hl; cbn [bind];
      [|discriminate].
    destruct (py_assert _); cbn [bind]; [|discriminate].
    intros [= <-]. apply per_class_loop_length in Hl.
    now rewrite repeat_length in Hl.
Qed.

(** ** The steps of [__init__] *)

Lemma check_class_size_inv {A : Type} (classes : list (list A)) (class_size : Z) :
  check_class_size classes class_size = Ok tt ->
  exists mn mx,
    py_min (map len classes) = Ok mn /\ py_max (map len classes) = Ok mx /\
    mn <= class_size <= mx.
Proof.
  unfold check_class_size.
  destruct (py_min _) as [mn|]; cbn [bind]; [|discriminate].
  destruct (py_max _) as [mx|]; cbn [bind]; [|discriminate].
  unfold py_assert.
  destruct ((class_size <=? mx) && (mn <=? class_size)) eqn:Hb; [|discriminate].
  apply andb_true_iff in Hb. intros _. exists mn, mx. repeat split; lia.
Qed.

Lemma py_min_len_nonneg {A : Type} (classes : list (list A)) (mn : Z) :
  py_min (map len classes) = Ok mn -> 0 <= mn.
Proof.
  intros Hmn. apply py_min_spec in Hmn. destruct Hmn as [Hin _].
  apply in_map_iff in Hin. destruct Hin as (c & <- & _). apply len_nonneg.
Qed.

Lemma py_min_len_pos {A : Type} (classes : list (list A)) (mn : Z) :
  py_min (map len classes) = Ok mn -> ~ In [] classes -> 0 < mn.
Proof.
  intros Hmn Hne. apply py_min_spec in Hmn. destruct Hmn as [Hin _].
  apply in_map_iff in Hin. destruct Hin as (c & <- & Hc).
  destruct c as [|a c]; [contradiction|]. unfold len. cbn. lia.
Qed.

Lemma prepare_inv (ds : dataset) (num_classes : Z)
  (sampling_factor : option factor) (labels : option (list pyval))
  (callback_get_label : option callback) (callback_type : string)
  (classes : list (list pyval)) (class_size : Z) :
  prepare ds num_classes sampling_factor labels callback_get_label callback_type
  = Ok (classes, class_size) ->
  exists f ls,
    resolve_alias sampling_factor = Ok f /\
    acquire_labels ds labels callback_get_label callback_type = Ok ls /\
    resolve_labels ds num_classes ls = Ok classes /\
    resolve_class_size classes f = Ok class_size /\
    check_class_size classes class_size = Ok tt.
Proof.
  unfold prepare.
  destruct (resolve_alias sampling_factor) as [f|]; cbn [bind]; [|discriminate].
  destruct (acquire_labels _ _ _ _) as [ls|]; cbn [bind]; [|discriminate].
  destruct (resolve_labels _ _ _) as [cl|] eqn:Hcl; cbn [bind]; [|discriminate].
  destruct (resolve_class_size _ _) as [cs|] eqn:Hcs; cbn [bind]; [|discriminate].
  destruct (check_class_size _ _) as [[]|] eqn:Hchk; cbn [bind]; [|discriminate].
  intros [= <- <-]. exists f, ls. auto.
Qed.

Lemma prepare_facts (ds : dataset) (num_classes : Z)
  (sampling_factor : option factor) (labels : option (list pyval))
  (callback_get_label : option callback) (callback_type : string)
  (classes : list (list pyval)) (class_size : Z) :
  prepare ds num_classes sampling_factor labels callback_get_label callback_type
  = Ok (classes, class_size) ->
  length classes = Z.to_nat num_classes /\ 0 < num_classes /\ 0 <= class_size.
Proof.
  intros Hp. apply prepare_inv in Hp.
  destruct Hp as (f & ls & _ & _ & Hres & _ & Hchk).
  apply resolve_labels_length in Hres.
  apply check_class_size_inv in Hchk. destruct Hchk as (mn & mx & Hmn & _ & Hr).
  pose proof (py_min_len_nonneg _ _ Hmn).
  split; [exact Hres|]. split; [|lia].
  destruct classes; [discriminate|]. cbn in Hres. lia.
Qed.

Section Init.
Context {G : Type} `{RandomLaws G}.

Lemma init_inv (ds : dataset) (nc : Z) (sh : bool) (sf : option factor)
  (ls : option (list pyval)) (cb : option callback) (cbt : string)
  (g g' : G) (self : sampler) :
  init ds nc sh sf ls cb cbt g = (Ok self, g') ->
  prepare ds nc sf ls cb cbt = Ok (labels self, class_size self) /\
  build_indices nc (labels self) (class_size self) g = (Ok (indices self), g') /\
  num_classes self = nc /\ shuffle self = sh.
Proof.
  unfold init.
  destruct (prepare ds nc sf ls cb cbt) as [[classes cs]|]; [|discriminate].
  destruct (build_indices nc classes cs g) as [[out|] g0] eqn:Hb; [|discriminate].
  intros [= <- <-]. cbn. auto.
Qed.

Lemma init_ok (ds : dataset) (nc : Z) (sh : bool) (sf : option factor)
  (ls : option (list pyval)) (cb : option callback) (cbt : string)
  (g : G) (classes : list (list pyval)) (cs : Z) :
  prepare ds nc sf ls cb cbt = Ok (classes, cs) ->
  ~ In [] classes ->
  exists self g',
    init ds nc sh sf ls cb cbt g = (Ok self, g') /\
    labels self = classes /\ class_size self = cs.
Proof.
  intros Hp Hne. unfold init. rewrite Hp.
  destruct (prepare_facts _ _ _ _ _ _ _ _ Hp) as (Hlen & Hnc & Hcs).
  destruct (build_indices_ok nc classes cs g) as (out & g' & ->);
    try assumption; try lia.
  eexists _, _. split; [reflexivity|]. cbn. auto.
Qed.

Lemma init_empty_class (ds : dataset) (nc : Z) (sh : bool) (sf : option factor)
  (ls : option (list pyval)) (cb : option callback) (cbt : string)
  (g : G) (classes : list (list pyval)) (cs : Z) :
  prepare ds nc sf ls cb cbt = Ok (classes, cs) ->
  In [] classes ->
  exists g', init ds nc sh sf ls cb cbt g = (Raise ZeroDivisionError, g').
Proof.
  intros Hp Hin. unfold init. rewrite Hp.
  destruct (prepare_facts _ _ _ _ _ _ _ _ Hp) as (Hlen & Hnc & Hcs).
  destruct (build_indices_empty_class nc classes cs g) as (g' & ->);
    try assumption. eauto.
Qed.
End Init.

Lemma prepare_intro (ds : dataset) (nc : Z) (sf : option factor)
  (ls : option (list pyval)) (cb : option callback) (cbt : string)
  (f : factor) (classes : list (list pyval)) :
  resolve_alias sf = Ok f ->
  resolved_partition ds nc ls cb cbt = Ok classes ->
  prepare ds nc sf ls cb cbt =
  (class_size <- resolve_class_size classes f ;;
   _ <- check_class_size classes class_size ;;
   Ok (classes, class_size)).
Proof.
  unfold prepare, resolved_partition. intros -> . cbn [bind].
  destruct (acquire_labels ds ls cb cbt) as [lbls|]; cbn [bind]; [|discriminate].
  now intros ->.
Qed.

Lemma prepare_partition (ds : dataset) (nc : Z) (sf : option factor)
  (ls : option (list pyval)) (cb : option callback) (cbt : string)
  (classes : list (list pyval)) (cs : Z) :
  prepare ds nc sf ls cb cbt = Ok (classes, cs) ->
  resolved_partition ds nc ls cb cbt = Ok classes.
Proof.
  intros Hp. apply prepare_inv in Hp.
  destruct Hp as (f & lbls & _ & Hacq & Hres & _).
  unfold resolved_partition. now rewrite Hacq.
Qed.

Lemma emissions_of_seq {A : Type} (labels : list (list A)) (class_size : Z)
  (emissions : list (list A)) :
  forall (start n : nat),
    emissions_of labels class_size (seq start n) emissions ->
    length emissions = n /\
    forall c, (c < n)%nat ->
      exists class_l e,
        nth_error labels (start + c) = Some class_l /\
        nth_error emissions c = Some e /\
        emission_of class_size class_l e.
Proof.
  intros start n; revert start emissions.
  induction n as [|n IH]; intros start emissions Hes; cbn [seq] in Hes.
  - inversion Hes; subst. split; [reflexivity|]. intros c Hc. lia.
  - inversion Hes as [|c0 e cs' es' (class_l & Hc0 & He) Hrest]; subst.
    apply IH in Hrest. destruct Hrest as [Hlen Hnth].
    split; [cbn; now rewrite Hlen|].
    intros [|c] Hc.
    + exists class_l, e. rewrite Nat.add_0_r. cbn. auto.
    + destruct (Hnth c) as (cl & e' & H1 & H2 & H3); [lia|].
      exists cl, e'. rewrite Nat.add_succ_r. cbn. auto.
Qed.

Section InitEmissions.
Context {G : Type} `{RandomLaws G}.

Lemma init_emissions (ds : dataset) (nc : Z) (sh : bool) (sf : option factor)
  (ls : option (list pyval)) (cb : option callback) (cbt : string)
  (g g' : G) (self : sampler) :
  init ds nc sh sf ls cb cbt g = (Ok self, g') ->
  exists emissions,
    indices self = concat emissions /\
    length emissions = Z.to_nat nc /\
    forall c, (c < Z.to_nat nc)%nat ->
      exists class_l e,
        nth_error (labels self) c = Some class_l /\
        nth_error emissions c = Some e /\
        emission_of (class_size self) class_l e.
Proof.
  intros Hinit. apply init_inv in Hinit. destruct Hinit as (_ & Hbuild & _).
  apply build_indices_inv in Hbuild. destruct Hbuild as (_ & es & Hes & Hem).
  exists es. split; [exact Hes|]. apply emissions_of_seq in Hem. exact Hem.
Qed.
End InitEmissions.

(** ** C1: per-class input *)

(** In the per-class branch no inner list of integers is ever taken whole:
    whenever the first inner list holds integers, resolution raises. *)
Lemma per_class_branch_int_list (ds : dataset) (nc : Z) (xs : list Z)
  (rest : list pyval) :
  is_ok (per_class_branch ds nc (PList (map PInt xs) :: rest)) = false.
Proof.
  unfold per_class_branch.
  destruct (py_assert _); cbn [bind is_ok]; [|reflexivity].
  destruct (per_class_loop_int_list 0 xs rest (repeat [] (Z.to_nat nc)) 0)
    as [-> | ->]; reflexivity.
Qed.

(** C1. For the dataset of length 8 with the per-class input
    [[0,1,2],[3,4,5,6,7]] and two classes, the constructor does not copy the
    inner lists: it stores [labels[0][0]], the integer 0, as class 0 and then
    takes its [len], which raises [TypeError]. *)
Theorem c1_per_class_input_raises :
  resolve_labels ds8 2 perclass8 = Raise TypeError.
Proof. reflexivity. Qed.

(** ** C10: which branch reads the labels *)



(** ** C6: the built sequence *)

Section Claims.
Context {G : Type} `{RandomLaws G}.

(** C6. After a successful construction with [num_classes = nc] the sampler
    holds [nc] classes, the partition resolved from the labels, none of
    them empty, and the class size resolved from the sampling factor, which
    passed the range assertion; the
    working sequence is the concatenation, in class-id order, of one
    emission per class; its length is [class_size * num_classes]; the
    emission of class [c] has exactly [class_size] entries and each of them
    is an index of class [c]. *)
Theorem c6_built_sequence (ds : dataset) (nc : Z) (sh : bool)
  (sf : option factor) (ls : option (list pyval)) (cb : option callback)
  (cbt : string) (g g' : G) (self : sampler) :
  init ds nc sh sf ls cb cbt g = (Ok self, g') ->
  num_classes self = nc /\
  shuffle self = sh /\
  resolved_partition ds nc ls cb cbt = Ok (labels self) /\
  length (labels self) = Z.to_nat nc /\
  ~ In [] (labels self) /\
  (exists f,
      resolve_alias sf = Ok f /\
      resolve_class_size (labels self) f = Ok (class_size self) /\
      check_class_size (labels self) (class_size self) = Ok tt) /\
  len (indices self) = class_size self * num_classes self /\
  exists emissions,
    indices self = concat emissions /\
    length emissions = Z.to_nat (num_classes self) /\
    forall c, (c < Z.to_nat (num_classes self))%nat ->
      exists class_l e,
        nth_error (labels self) c = Some class_l /\
        nth_error emissions c = Some e /\
        emission_of (class_size self) class_l e /\
        len e = class_size self /\
        (forall x, In x e -> In x class_l).
Proof.
  intros Hinit. apply init_inv in Hinit.
  destruct Hinit as (Hprep & Hbuild & Hnc & Hsh). rewrite Hnc.
  pose proof (prepare_partition _ _ _ _ _ _ _ _ Hprep) as Hpart.
  destruct (prepare_facts _ _ _ _ _ _ _ _ Hprep) as (Hlen & Hnc0 & Hcs0).
  destruct (prepare_inv _ _ _ _ _ _ _ _ Hprep)
    as (f & lbls & Hf & _ & _ & Hcs & Hchk).
  apply build_indices_inv in Hbuild. destruct Hbuild as (Hl & es & Hes & Hem).
  apply emissions_of_seq in Hem. destruct Hem as [Hle Hnth].
  split; [reflexivity|]. split; [exact Hsh|]. split; [exact Hpart|].
  split; [exact Hlen|]. split.
  { intros Hin. apply In_nth_error in Hin. destruct Hin as [c Hc].
    assert (Hlt : (c < Z.to_nat nc)%nat).
    { rewrite <- Hlen. apply nth_error_Some. now rewrite Hc. }
    destruct (Hnth c Hlt) as (class_l & e & H1 & _ & H3).
    cbn in H1. rewrite Hc in H1. injection H1 as <-.
    destruct H3 as (reps & sample & s & Hr & _).
    unfold reps_and_sample in Hr. cbn in Hr.
    destruct (Z.leb_spec 0 (class_size self)); [discriminate|lia]. }
  split; [exists f; auto|].
  split; [exact Hl|]. exists es. split; [exact Hes|].
  split; [exact Hle|]. intros c Hc.
  destruct (Hnth c Hc) as (class_l & e & H1 & H2 & H3).
  exists class_l, e. cbn in H1. repeat split; try assumption.
  - now apply emission_len in H3.
  - intros x. exact (emission_in _ _ _ x H3).
Qed.
End Claims.

Lemma c6_witness :
  exists self g',
    init ds8 2 false (Some (FInt 4)) (Some flat8) None "single" 42
    = (Ok self, g') /\
    num_classes self = 2 /\
    resolved_partition ds8 2 (Some flat8) None "single" = Ok (labels self) /\
    len (indices self) = class_size self * num_classes self.
Proof.
  eexists _, _. split; [vm_compute; reflexivity|].
  destruct (@c6_built_sequence Z lcg_source lcg_laws ds8 2 false
              (Some (FInt 4)) (Some flat8) None "single" 42 _ _
              ltac:(vm_compute; reflexivity))
    as (H1 & _ & H2 & _ & _ & _ & H3 & _).
  split; [exact H1|]. split; [exact H2|exact H3].
Defined.

(** ** C8: iteration without shuffling *)

Lemma skipn_nth_error {A : Type} (l : list A) (i : nat) (x : A) :
  nth_error l i = Some x -> skipn i l = x :: skipn (S i) l.
Proof.
  revert i; induction l as [|h t IH]; intros [|i] Hi; cbn in *; try discriminate.
  - now injection Hi as ->.
  - now apply IH.
Qed.

Lemma drain_skipn (fuel : nat) :
  forall (self : sampler) (it : nat),
    (length (indices self) <= fuel + it)%nat ->
    drain fuel self it = Some (skipn it (indices self)).
Proof.
  induction fuel as [|fuel IH]; intros self it Hlen.
  - cbn [drain]. unfold next.
    destruct (nth_error (indices self) it) eqn:Hn.
    + assert (it < length (indices self))%nat by (apply nth_error_Some; congruence).
      lia.
    + apply nth_error_None in Hn. now rewrite skipn_all2.
  - cbn [drain]. unfold next.
    destruct (nth_error (indices self) it) as [x|] eqn:Hn.
    + rewrite IH by lia. now rewrite (skipn_nth_error _ _ _ Hn).
    + apply nth_error_None in Hn. now rewrite skipn_all2.
Qed.

Section Iteration.
Context {G : Type} `{RandomLaws G}.

Lemma pass_no_shuffle (self : sampler) (g : G) :
  shuffle self = false -> pass self g = (Some (indices self), self, g).
Proof.
  intros Hsh. unfold pass, iter. rewrite Hsh.
  rewrite drain_skipn by lia. reflexivity.
Qed.

(** C8. With [shuffle] disabled, two passes over the sampler yield the same
    items in the same order: the [class_size * num_classes] indices built
    at construction, class 0's emission first, then class 1's, and so on,
    each emission being the repetitions followed by the sampled remainder. *)
Theorem c8_passes_identical (ds : dataset) (nc : Z) (sf : option factor)
  (ls : option (list pyval)) (cb : option callback) (cbt : string)
  (g g' : G) (self : sampler) :
  init ds nc false sf ls cb cbt g = (Ok self, g') ->
  forall (g1 g2 : G),
    let p1 := pass self g1 in
    let p2 := pass (snd (fst p1)) g2 in
    fst (fst p1) = Some (indices self) /\
    fst (fst p2) = fst (fst p1) /\
    len (indices self) = class_size self * nc /\
    exists emissions,
      indices self = concat emissions /\
      emissions_of (labels self) (class_size self) (seq 0 (Z.to_nat nc))
        emissions.
Proof.
  intros Hinit g1 g2. apply init_inv in Hinit.
  destruct Hinit as (_ & Hbuild & _ & Hsh). cbv zeta.
  rewrite (pass_no_shuffle self g1 Hsh). cbn [fst snd].
  rewrite (pass_no_shuffle self g2 Hsh). cbn [fst snd].
  apply build_indices_inv in Hbuild. tauto.
Qed.
End Iteration.

Lemma c8_witness :
  exists self g',
    init ds8 2 false (Some (FFloat float1)) (Some flat8) None "single" 7
    = (Ok self, g') /\
    fst (fst (pass (snd (fst (pass self 1))) 2)) = fst (fst (pass self 1)).
Proof.
  eexists _, _. split; [vm_compute; reflexivity|].
  eapply (c8_passes_identical ds8 2 (Some (FFloat float1)) (Some flat8) None
            "single" 7).
  vm_compute. reflexivity.
Defined.

(** ** C9: multiplicities when oversampling *)

Section Multiplicity.
Context {A : Type} (eq_dec : forall x y : A, {x = y} + {x <> y}).

Lemma count_occ_py_list_mul (l : list A) (reps : Z) (x : A) :
  count_occ eq_dec (py_list_mul l reps) x
  = (Z.to_nat reps * count_occ eq_dec l x)%nat.
Proof.
  unfold py_list_mul. induction (Z.to_nat reps) as [|n IH]; cbn [repeat concat].
  - reflexivity.
  - rewrite count_occ_app, IH. lia.
Qed.

Lemma selection_count_occ (l s : list A) (k : nat) (x : A) :
  selection l k s -> (count_occ eq_dec s x <= count_occ eq_dec l x)%nat.
Proof.
  intros [_ [rest Hperm]].
  rewrite (Permutation_count_occ eq_dec) in Hperm.
  rewrite <- (Hperm x), count_occ_app. lia.
Qed.

(** Without assuming distinct indices: an element occurring [m] times in
    the class occurs between [reps * m] and [(reps + 1) * m] times. *)
Lemma emission_count_occ (class_size : Z) (class_l e : list A) (x : A) :
  emission_of class_size class_l e ->
  len class_l <= class_size -> class_l <> [] ->
  let m := Z.of_nat (count_occ eq_dec class_l x) in
  class_size / len class_l * m
  <= Z.of_nat (count_occ eq_dec e x)
  <= (class_size / len class_l + 1) * m.
Proof.
  intros (reps & sample & s & Hrs & Hs0 & Hsel & ->) Hle Hne m.
  apply reps_and_sample_inv in Hrs; [|apply len_nonneg].
  assert (Hn : 0 < len class_l).
  { destruct class_l; [congruence|]. unfold len. cbn. lia. }
  destruct Hrs as [(_ & -> & _)|(Hlt & _)]; [|lia].
  rewrite count_occ_app, count_occ_py_list_mul.
  pose proof (selection_count_occ _ _ _ x Hsel) as Hc.
  assert (0 <= class_size / len class_l) by (apply Z.div_pos; lia).
  subst m. nia.
Qed.
End Multiplicity.

Section MultiplicityClaim.
Context {G : Type} `{RandomLaws G} {A : Type}
        (eq_dec : forall x y : A, {x = y} + {x <> y}).

(** C9. When a class of [n] distinct indices is oversampled
    ([n <= class_size]), every index of the class occurs in the class's
    emission at least [class_size // n] and at most [class_size // n + 1]
    times. *)
Theorem c9_oversampled_multiplicity (class_size : Z) (class_l e : list A)
  (g g' : G) :
  class_emission class_size class_l g = (Ok e, g') ->
  len class_l <= class_size ->
  NoDup class_l ->
  forall x, In x class_l ->
    class_size / len class_l
    <= Z.of_nat (count_occ eq_dec e x)
    <= class_size / len class_l + 1.
Proof.
  intros He Hle Hnd x Hx. apply class_emission_inv in He.
  assert (Hne : class_l <> []) by (intros ->; destruct Hx).
  pose proof (emission_count_occ eq_dec class_size class_l e x He Hle Hne) as Hc.
  rewrite (proj1 (NoDup_count_occ' eq_dec class_l) Hnd x Hx) in Hc.
  cbv zeta in Hc. lia.
Qed.
End MultiplicityClaim.

Lemma c9_witness :
  5 / len [0; 1; 2]
  <= Z.of_nat (count_occ Z.eq_dec (py_list_mul [0; 1; 2] 1 ++ [0; 2]) 2)
  <= 5 / len [0; 1; 2] + 1.
Proof.
  apply (c9_oversampled_multiplicity (G := Z) Z.eq_dec 5 [0; 1; 2]
           (py_list_mul [0; 1; 2] 1 ++ [0; 2]) 42 1116302264).
  - vm_compute. reflexivity.
  - vm_compute. discriminate.
  - repeat constructor; simpl; intuition lia.
  - simpl. auto.
Defined.

(** ** C4: an empty class *)

(** C4, counterexample. With flat labels [0, 0] for two classes, class 1 is
    empty. The sizes and
    the class size resolve (to 0), the range assertion passes, and the
    failure comes from [__build_indices]: a [ZeroDivisionError]. *)
Lemma c4_counterexample :
  prepare ds2 2 (Some (FFloat float0)) (Some [PInt 0; PInt 0]) None "single"
  = Ok ([[PInt 0; PInt 1]; []], 0) /\
  init ds2 2 false (Some (FFloat float0)) (Some [PInt 0; PInt 0]) None
    "single" 42 = (Raise ZeroDivisionError, 42).
Proof. split; vm_compute; reflexivity. Qed.

Section EmptyClass.
Context {G : Type} `{RandomLaws G}.

(** C4, amended. If a class of the resolved partition is empty,
    construction fails for every sampling factor. Nothing checks for the
    empty class before the indices are built: when the class size resolves
    and the range assertion passes, the error is the [ZeroDivisionError]
    raised by [__build_indices]. *)
Theorem c4_empty_class_fails (ds : dataset) (nc : Z) (sh : bool)
  (sf : option factor) (ls : option (list pyval)) (cb : option callback)
  (cbt : string) (g : G) (classes : list (list pyval)) :
  resolved_partition ds nc ls cb cbt = Ok classes ->
  In [] classes ->
  (exists e g', init ds nc sh sf ls cb cbt g = (Raise e, g')) /\
  (is_ok (prepare ds nc sf ls cb cbt) = true ->
   exists g', init ds nc sh sf ls cb cbt g = (Raise ZeroDivisionError, g')).
Proof.
  intros Hpart Hin.
  destruct (prepare ds nc sf ls cb cbt) as [[classes' cs]|e] eqn:Hp.
  - pose proof (prepare_partition _ _ _ _ _ _ _ _ Hp) as Hpart'.
    rewrite Hpart in Hpart'. injection Hpart' as <-.
    destruct (init_empty_class ds nc sh sf ls cb cbt g classes cs Hp Hin)
      as (g' & Hi).
    split; eauto.
  - split; [|discriminate]. unfold init. rewrite Hp. eauto.
Qed.
End EmptyClass.

Lemma c4_witness :
  exists g',
    init ds2 2 false (Some (FInt 2)) (Some [PInt 0; PInt 0]) None "single" 42
    = (Raise ZeroDivisionError, g').
Proof.
  apply (c4_empty_class_fails ds2 2 false (Some (FInt 2))
           (Some [PInt 0; PInt 0]) None "single" 42 [[PInt 0; PInt 1]; []]).
  - vm_compute. reflexivity.
  - simpl. auto.
  - vm_compute. reflexivity.
Defined.

(** ** C3: a fixed class size *)

(** C3, counterexample. Classes of sizes 3 and 5 with
    [sampling_factor = 10]: the class size is set to 10 and the range
    assertion of line 120 rejects it. *)
Lemma c3_counterexample :
  resolve_class_size [[PInt 0; PInt 1; PInt 2];
                      [PInt 3; PInt 4; PInt 5; PInt 6; PInt 7]] (FInt 10)
  = Ok 10 /\
  init ds8 2 false (Some (FInt 10)) (Some flat8) None "single" 42
  = (Raise AssertionError, 42).
Proof. split; vm_compute; reflexivity. Qed.

Section FixedSize.
Context {G : Type} `{RandomLaws G}.

(** C3, amended. For a fixed-size factor [n >= 2] and a partition without
    an empty class, the class size is set to [n]; the range assertion
    applies to this mode too, so construction succeeds, with
    [class_size = n], when [min_size <= n <= max_size], and raises
    [AssertionError] otherwise. *)
Theorem c3_fixed_size (ds : dataset) (nc : Z) (sh : bool) (n : Z)
  (ls : option (list pyval)) (cb : option callback) (cbt : string) (g : G)
  (classes : list (list pyval)) (mn mx : Z) :
  2 <= n ->
  resolved_partition ds nc ls cb cbt = Ok classes ->
  ~ In [] classes ->
  py_min (map len classes) = Ok mn ->
  py_max (map len classes) = Ok mx ->
  resolve_class_size classes (FInt n) = Ok n /\
  (mn <= n <= mx ->
   exists self g',
     init ds nc sh (Some (FInt n)) ls cb cbt g = (Ok self, g') /\
     class_size self = n) /\
  (~ (mn <= n <= mx) ->
   init ds nc sh (Some (FInt n)) ls cb cbt g = (Raise AssertionError, g)).
Proof.
  intros Hn Hpart Hne Hmn Hmx.
  assert (Hrcs : resolve_class_size classes (FInt n) = Ok n).
  { unfold resolve_class_size. rewrite Hmn, Hmx. cbn [bind compute_class_size].
    replace (n =? 1) with false by (symmetry; lia). reflexivity. }
  assert (Hprep : prepare ds nc (Some (FInt n)) ls cb cbt =
                  (_ <- check_class_size classes n ;; Ok (classes, n))).
  { rewrite (prepare_intro ds nc (Some (FInt n)) ls cb cbt (FInt n) classes
               eq_refl Hpart).
    now rewrite Hrcs. }
  unfold check_class_size in Hprep. rewrite Hmn, Hmx in Hprep.
  cbn [bind] in Hprep.
  split; [exact Hrcs|]. split.
  - intros Hr.
    replace ((n <=? mx) && (mn <=? n)) with true in Hprep
      by (symmetry; apply andb_true_iff; split; lia).
    cbn [py_assert bind] in Hprep.
    destruct (init_ok ds nc sh (Some (FInt n)) ls cb cbt g classes n Hprep Hne)
      as (self & g' & Hi & _ & Hcs).
    eauto.
  - intros Hr.
    replace ((n <=? mx) && (mn <=? n)) with false in Hprep
      by (symmetry; apply andb_false_iff; lia).
    cbn [py_assert bind] in Hprep. unfold init. now rewrite Hprep.
Qed.
End FixedSize.

Lemma c3_witness :
  exists self g',
    init ds8 2 false (Some (FInt 4)) (Some flat8) None "single" 42
    = (Ok self, g') /\ class_size self = 4.
Proof.
  apply (c3_fixed_size ds8 2 false 4 (Some flat8) None "single" 42
           [[PInt 0; PInt 1; PInt 2]; [PInt 3; PInt 4; PInt 5; PInt 6; PInt 7]]
           3 5).
  - lia.
  - vm_compute. reflexivity.
  - simpl. intuition discriminate.
  - vm_compute. reflexivity.
  - vm_compute. reflexivity.
  - lia.
Defined.

(** ** C5: the worked example *)

(** C5, counterexample. Class 0 has as many indices as the class size, so
    line 135 takes the repetition branch: one full copy and an empty sample,
    not a sample of size 3. *)
Lemma c5_counterexample :
  reps_and_sample 3 (len [PInt 0; PInt 1; PInt 2]) = Ok (1, 0) /\
  reps_and_sample 3 (len [PInt 0; PInt 1; PInt 2]) <> Ok (0, 3).
Proof. split; vm_compute; [reflexivity | discriminate]. Qed.

Section EmissionEq.
Context {G : Type} `{RandomSource G} {A : Type}.

(** A class's emission is the full repetitions followed by the list that
    [rand_sample] returns for the remainder. *)
Lemma class_emission_eq (class_size : Z) (class_l : list A) (reps sample : Z)
  (g : G) :
  reps_and_sample class_size (len class_l) = Ok (reps, sample) ->
  0 <= sample <= len class_l ->
  class_emission class_size class_l g
  = (Ok (py_list_mul class_l reps
         ++ fst (rand_sample class_l (Z.to_nat sample) g)),
     snd (rand_sample class_l (Z.to_nat sample) g)).
Proof.
  intros Hr Hs. unfold class_emission. rewrite Hr. unfold random_sample.
  destruct (Z.ltb_spec sample 0) as [H0|H0]; [lia|].
  destruct (Z.ltb_spec (len class_l) sample) as [H1|H1]; [lia|].
  cbn [orb].
  destruct (rand_sample class_l (Z.to_nat sample) g) as [s g']. reflexivity.
Qed.
End EmissionEq.

Section Example.
Context {G : Type} `{RandomLaws G}.

(** C5, amended. With two classes holding [0,1,2] and [3,4,5,6,7] and
    [sampling_factor = 0.0], [class_size] is 3 and the built sequence has
    length 6, three entries from each class; class 0's emission is produced
    by the repetition branch with one repetition and remainder 0: its list
    [0,1,2] in the original order, followed by an empty sample; class 1's
    emission is the list that [random.sample] returns for [[3,4,5,6,7]] and
    3, called after class 0's empty sample: the uniform
    without-replacement 3-subset of [{3,4,5,6,7}] that this call draws. *)
Theorem c5_example (g : G) :
  exists self g' s,
    init ds8 2 false (Some (FFloat float0)) (Some flat8) None "single" g
    = (Ok self, g') /\
    labels self = [map PInt [0; 1; 2]; map PInt [3; 4; 5; 6; 7]] /\
    class_size self = 3 /\
    len (indices self) = 6 /\
    reps_and_sample 3 (len (map PInt [0; 1; 2])) = Ok (1, 0) /\
    reps_and_sample 3 (len (map PInt [3; 4; 5; 6; 7])) = Ok (0, 3) /\
    indices self = map PInt [0; 1; 2] ++ s /\
    selection (map PInt [3; 4; 5; 6; 7]) 3 s /\
    class_emission 3 (map PInt [0; 1; 2]) g
    = (Ok (map PInt [0; 1; 2]), snd (rand_sample (map PInt [0; 1; 2]) 0 g)) /\
    (s, g') = rand_sample (map PInt [3; 4; 5; 6; 7]) 3
                (snd (rand_sample (map PInt [0; 1; 2]) 0 g)).
Proof.
  set (c0 := map PInt [0; 1; 2]). set (c1 := map PInt [3; 4; 5; 6; 7]).
  assert (Hp : prepare ds8 2 (Some (FFloat float0)) (Some flat8) None "single"
               = Ok ([c0; c1], 3))
    by (vm_compute; reflexivity).
  set (r0 := rand_sample c0 0 g). set (r1 := rand_sample c1 3 (snd r0)).
  assert (Hnil : fst r0 = []).
  { apply (selection_none c0). apply rand_sample_selection. cbn. lia. }
  assert (Hs1 : selection c1 3 (fst r1)).
  { apply rand_sample_selection. cbn. lia. }
  assert (He0 : class_emission 3 c0 g = (Ok c0, snd r0)).
  { rewrite (class_emission_eq 3 c0 1 0); [|reflexivity|cbn; lia].
    change (Z.to_nat 0) with 0%nat. fold r0. rewrite Hnil. reflexivity. }
  assert (He1 : class_emission 3 c1 (snd r0) = (Ok (fst r1), snd r1)).
  { rewrite (class_emission_eq 3 c1 0 3); [|reflexivity|cbn; lia].
    change (Z.to_nat 3) with 3%nat. fold r1. reflexivity. }
  assert (Hlen : len (c0 ++ fst r1) = 6).
  { unfold len. rewrite length_app, (proj1 Hs1). reflexivity. }
  assert (Hb : build_indices 2 [c0; c1] 3 g = (Ok (c0 ++ fst r1), snd r1)).
  { unfold build_indices. change (seq 0 (Z.to_nat 2)) with [0%nat; 1%nat].
    cbn [build_loop nth_error]. rewrite He0. cbn [app]. rewrite He1.
    change ([] ++ c0) with c0. rewrite Hlen. reflexivity. }
  exists {| num_classes := 2; shuffle := false; labels := [c0; c1];
            class_size := 3; indices := c0 ++ fst r1 |}, (snd r1), (fst r1).
  split; [unfold init; rewrite Hp, Hb; reflexivity|].
  cbn [labels class_size indices].
  repeat split; try reflexivity; try assumption.
  - apply Hs1.
  - apply Hs1.
  - now destruct r1.
Qed.
End Example.

Lemma c5_witness :
  exists self g' s,
    init ds8 2 false (Some (FFloat float0)) (Some flat8) None "single" 42
    = (Ok self, g') /\
    indices self = map PInt [0; 1; 2] ++ s /\
    (s, g') = rand_sample (map PInt [3; 4; 5; 6; 7]) 3
                (snd (rand_sample (map PInt [0; 1; 2]) 0 42)).
Proof.
  destruct (c5_example (G := Z) 42)
    as (self & g' & s & Hi & _ & _ & _ & _ & _ & Hs & _ & _ & Hr).
  exists self, g', s. split; [exact Hi|]. split; [exact Hs | exact Hr].
Defined.

(** ** Binary64 rounding *)

Lemma fexp_eq (e : Z) : fexp prec emax e = Z.max (e - 53) (-1074).
Proof. reflexivity. Qed.

Lemma digits2_pos_bounds (p : positive) :
  2 ^ (Zpos (digits2_pos p) - 1) <= Zpos p < 2 ^ Zpos (digits2_pos p).
Proof.
  induction p as [p IH|p IH|]; cbn [digits2_pos]; [| |cbn; lia];
    rewrite Pos2Z.inj_succ;
    replace (Z.succ (Zpos (digits2_pos p)) - 1)
      with (Z.succ (Zpos (digits2_pos p) - 1)) by lia;
    rewrite !Z.pow_succ_r by lia; lia.
Qed.

Lemma Zdigits2_bounds (m : Z) :
  0 < m -> 2 ^ (Zdigits2 m - 1) <= m < 2 ^ Zdigits2 m.
Proof.
  destruct m as [|p|p]; try lia. intros _. apply digits2_pos_bounds.
Qed.

Lemma Zdigits2_nonneg (m : Z) : 0 <= Zdigits2 m.
Proof. destruct m; cbn; lia. Qed.

Lemma Zdigits2_le (m k : Z) : 0 <= m -> 0 <= k -> m < 2 ^ k -> Zdigits2 m <= k.
Proof.
  intros Hm Hk Hlt. destruct (Z.eq_dec m 0) as [->|Hne]; [cbn; lia|].
  destruct (Z.le_gt_cases (Zdigits2 m) k) as [Hle|Hgt]; [exact Hle|].
  pose proof (Zdigits2_bounds m ltac:(lia)) as [Hlo _].
  assert (2 ^ k <= 2 ^ (Zdigits2 m - 1)) by (apply Z.pow_le_mono_r; lia).
  lia.
Qed.

Lemma Zdigits2_ge (m k : Z) : 0 < m -> 2 ^ (k - 1) <= m -> k <= Zdigits2 m.
Proof.
  intros Hm Hle. destruct (Z.le_gt_cases k (Zdigits2 m)) as [H|Hgt]; [exact H|].
  pose proof (Zdigits2_bounds m Hm) as [_ Hhi].
  pose proof (Zdigits2_nonneg m).
  assert (2 ^ Zdigits2 m <= 2 ^ (k - 1)) by (apply Z.pow_le_mono_r; lia).
  lia.
Qed.

Lemma iter_pos_nat {A : Type} (f : A -> A) (p : positive) :
  forall x, iter_pos f p x = Nat.iter (Pos.to_nat p) f x.
Proof.
  induction p as [p IH|p IH|]; intros x; cbn [iter_pos].
  - rewrite !IH, Pos2Nat.inj_xI, Nat.iter_succ.
    replace (2 * Pos.to_nat p)%nat with (Pos.to_nat p + Pos.to_nat p)%nat by lia.
    now rewrite Nat.iter_add, !Nat.iter_swap.
  - rewrite !IH, Pos2Nat.inj_xO.
    replace (2 * Pos.to_nat p)%nat with (Pos.to_nat p + Pos.to_nat p)%nat by lia.
    now rewrite Nat.iter_add.
  - reflexivity.
Qed.

Lemma shr_m_shr_1 (mrs : shr_record) :
  0 <= shr_m mrs -> shr_m (shr_1 mrs) = shr_m mrs / 2.
Proof.
  destruct mrs as [m r s]. cbn [shr_m]. intros Hm.
  destruct m as [|[p|p|]|p]; cbn [shr_1 shr_m]; try lia; try reflexivity.
  - apply Z.div_unique with 1; lia.
  - apply Z.div_unique with 0; lia.
Qed.

Lemma shr_m_iter (k : nat) (mrs : shr_record) :
  0 <= shr_m mrs ->
  shr_m (Nat.iter k shr_1 mrs) = shr_m mrs / 2 ^ Z.of_nat k.
Proof.
  intros Hm. induction k as [|k IH].
  - cbn. now rewrite Z.div_1_r.
  - rewrite Nat.iter_succ, shr_m_shr_1, IH.
    + rewrite Z.div_div by lia. now rewrite Nat2Z.inj_succ, Z.pow_succ_r, Z.mul_comm by lia.
    + rewrite IH. apply Z.div_pos; lia.
Qed.

Lemma shr_exact_iter (k : nat) :
  forall m, 0 <= m ->
    Nat.iter k shr_1 (Build_shr_record (m * 2 ^ Z.of_nat k) false false)
    = Build_shr_record m false false.
Proof.
  induction k as [|k IH]; intros m Hm.
  - cbn. now rewrite Z.mul_1_r.
  - rewrite Nat.iter_succ, Nat2Z.inj_succ, Z.pow_succ_r by lia.
    replace (m * (2 * 2 ^ Z.of_nat k)) with (2 * m * 2 ^ Z.of_nat k) by lia.
    rewrite IH by lia. destruct m as [|p|p]; try lia; reflexivity.
Qed.

Lemma shift_amount_nonneg (m e : Z) : 0 <= shift_amount m e.
Proof. unfold shift_amount. lia. Qed.

Lemma shr_fexp_spec (m e : Z) (l : location) :
  0 <= m ->
  shr_m (fst (shr_fexp prec emax m e l)) = m / 2 ^ shift_amount m e /\
  snd (shr_fexp prec emax m e l) = e + shift_amount m e.
Proof.
  intros Hm. unfold shr_fexp, shr, shift_amount.
  assert (Hrec : shr_m (shr_record_of_loc m l) = m)
    by (destruct l as [|[]]; reflexivity).
  destruct (fexp prec emax (Zdigits2 m + e) - e) as [|p|p] eqn:Hn; cbn [fst snd].
  - rewrite Hrec. cbn. rewrite Z.div_1_r. lia.
  - rewrite iter_pos_nat, shr_m_iter, Hrec, positive_nat_Z by lia.
    replace (Z.max 0 (Zpos p)) with (Zpos p) by lia. lia.
  - rewrite Hrec. replace (Z.max 0 (Zneg p)) with 0 by lia.
    cbn. rewrite Z.div_1_r. lia.
Qed.

Lemma shr_fexp_exact (m e : Z) :
  0 <= m -> m mod 2 ^ shift_amount m e = 0 ->
  loc_of_shr_record (fst (shr_fexp prec emax m e loc_Exact)) = loc_Exact.
Proof.
  intros Hm Hmod. unfold shr_fexp, shr, shift_amount in *.
  destruct (fexp prec emax (Zdigits2 m + e) - e) as [|p|p] eqn:Hn; cbn [fst];
    try reflexivity.
  replace (Z.max 0 (Zpos p)) with (Zpos p) in Hmod by lia.
  apply Z.div_exact in Hmod; [|lia].
  rewrite iter_pos_nat. cbn [shr_record_of_loc].
  assert (Hq : 0 <= m / 2 ^ Zpos p) by (apply Z.div_pos; lia).
  set (q := m / 2 ^ Zpos p) in *.
  replace m with (q * 2 ^ Z.of_nat (Pos.to_nat p))
    by (rewrite positive_nat_Z; lia).
  now rewrite shr_exact_iter.
Qed.

Lemma round_nearest_even_bounds (m : Z) (l : location) :
  m <= round_nearest_even m l <= m + 1.
Proof.
  destruct l as [|[]]; cbn [round_nearest_even];
    try destruct (Z.even m); lia.
Qed.

Lemma binary_round_aux_spec (s : bool) (M E : Z) :
  0 < M ->
  exists m1,
    M / 2 ^ shift_amount M E <= m1 <= M / 2 ^ shift_amount M E + 1 /\
    (M mod 2 ^ shift_amount M E = 0 -> m1 = M / 2 ^ shift_amount M E) /\
    binary_round_aux prec emax s M E loc_Exact =
    float_of_rounded s
      (m1 / 2 ^ shift_amount m1 (E + shift_amount M E))
      (E + shift_amount M E + shift_amount m1 (E + shift_amount M E)).
Proof.
  intros HM. unfold binary_round_aux.
  pose proof (shr_fexp_spec M E loc_Exact ltac:(lia)) as [Hm1 He1].
  pose proof (shr_fexp_exact M E ltac:(lia)) as Hex.
  destruct (shr_fexp prec emax M E loc_Exact) as [mrs' e'].
  cbn [fst snd] in *. subst e'.
  set (m1 := round_nearest_even (shr_m mrs') (loc_of_shr_record mrs')).
  pose proof (round_nearest_even_bounds (shr_m mrs') (loc_of_shr_record mrs')) as Hb.
  fold m1 in Hb. rewrite Hm1 in Hb.
  assert (H0 : 0 <= M / 2 ^ shift_amount M E).
  { apply Z.div_pos; [lia|]. apply Z.pow_pos_nonneg; [lia|apply shift_amount_nonneg]. }
  pose proof (shr_fexp_spec m1 (E + shift_amount M E) loc_Exact ltac:(lia)) as [Hm2 He2].
  destruct (shr_fexp prec emax m1 (E + shift_amount M E) loc_Exact) as [mrs'' e''].
  cbn [fst snd] in *. subst e''. rewrite Hm2.
  exists m1. split; [exact Hb|]. split; [|reflexivity].
  intros Hmod. subst m1. rewrite (Hex Hmod), Hm1. reflexivity.
Qed.

Lemma pow2_pos (k : Z) : 0 <= k -> 0 < 2 ^ k.
Proof. intros Hk. apply Z.pow_pos_nonneg; lia. Qed.

Lemma pow2_split (a b : Z) : 0 <= a -> 0 <= b -> 2 ^ (a + b) = 2 ^ a * 2 ^ b.
Proof. intros. now apply Z.pow_add_r. Qed.

(** Rounding a positive value that does not exceed an integer [N < 2^53]
    gives a float whose integer part is at most [N]. *)
Lemma round_upper (M E N : Z) :
  0 < M -> E <= 0 -> 0 <= N < 2 ^ 53 -> M <= N * 2 ^ (- E) ->
  exists k,
    py_int_of_float (binary_round_aux prec emax false M E loc_Exact) = Ok k /\
    float_floor (binary_round_aux prec emax false M E loc_Exact) = Some k /\
    0 <= k <= N.
Proof.
  intros HM HE HN Hle.
  destruct (binary_round_aux_spec false M E HM) as (m1 & Hb & Hex & ->).
  set (n1 := shift_amount M E) in *.
  assert (Hn1 : 0 <= n1) by apply shift_amount_nonneg.
  pose proof (pow2_pos (- E) ltac:(lia)) as HpE.
  pose proof (pow2_pos n1 Hn1) as Hpn1.
  assert (HdM : Zdigits2 M <= 53 - E).
  { apply Zdigits2_le; try lia.
    replace (53 - E) with (53 + - E) by lia. rewrite pow2_split by lia. nia. }
  assert (He1 : E + n1 <= 0).
  { unfold n1, shift_amount. rewrite fexp_eq. lia. }
  set (e1 := E + n1) in *.
  pose proof (pow2_pos (- e1) ltac:(lia)) as Hpe1.
  set (K := N * 2 ^ (- e1)).
  assert (HK : N * 2 ^ (- E) = K * 2 ^ n1).
  { unfold K. rewrite <- Z.mul_assoc, <- pow2_split by lia.
    do 2 f_equal. lia. }
  assert (Hdiv0 : 0 <= M / 2 ^ n1) by (apply Z.div_pos; lia).
  assert (Hm1K : m1 <= K).
  { destruct (Z.eq_dec (M mod 2 ^ n1) 0) as [Hz|Hnz].
    - rewrite (Hex Hz). apply Z.div_le_upper_bound; lia.
    - assert (M / 2 ^ n1 < K); [|lia].
      apply Z.div_lt_upper_bound; [lia|].
      assert (M <> K * 2 ^ n1).
      { intros Heq. apply Hnz. rewrite Heq. apply Z.mod_mul. lia. }
      lia. }
  assert (Hm1 : 0 <= m1) by lia.
  assert (HKlt : K < 2 ^ (53 - e1)).
  { unfold K. replace (53 - e1) with (53 + - e1) by lia.
    rewrite pow2_split by lia. nia. }
  assert (Hd1 : Zdigits2 m1 <= 53 - e1) by (apply Zdigits2_le; lia).
  set (n2 := shift_amount m1 e1).
  assert (Hn2 : 0 <= n2) by apply shift_amount_nonneg.
  assert (He2 : e1 + n2 <= 0).
  { unfold n2, shift_amount. rewrite fexp_eq. lia. }
  set (e2 := e1 + n2) in *.
  pose proof (pow2_pos (- e2) ltac:(lia)) as Hpe2.
  pose proof (pow2_pos n2 Hn2) as Hpn2.
  assert (HK2 : K = N * 2 ^ (- e2) * 2 ^ n2).
  { unfold K. rewrite <- Z.mul_assoc, <- pow2_split by lia.
    do 2 f_equal. lia. }
  assert (Hm2 : m1 / 2 ^ n2 <= N * 2 ^ (- e2)).
  { apply Z.div_le_upper_bound; lia. }
  assert (Hm20 : 0 <= m1 / 2 ^ n2) by (apply Z.div_pos; lia).
  destruct (m1 / 2 ^ n2) as [|p|p] eqn:Hq; cbn [float_of_rounded]; [| |lia].
  - exists 0. cbn. repeat split; lia.
  - change (emax - prec) with 971.
    replace (e2 <=? 971) with true by (symmetry; lia).
    cbn [py_int_of_float float_floor].
    destruct (0 <=? e2) eqn:H0.
    + assert (e2 = 0) as Heq by lia. rewrite Heq in *. cbn in Hm2 |- *.
      exists (Zpos p * 1). repeat split; lia.
    + exists (Zpos p / 2 ^ (- e2)). repeat split.
      * apply Z.div_pos; lia.
      * apply Z.div_le_upper_bound; lia.
Qed.

Lemma pos_iter_xO (p k : positive) :
  Zpos (Pos.iter xO p k) = Zpos p * 2 ^ Zpos k.
Proof.
  induction k as [|k IH] using Pos.peano_ind.
  - cbn. lia.
  - rewrite Pos.iter_succ, Pos2Z.inj_xO, IH, Pos2Z.inj_succ, Z.pow_succ_r by lia.
    lia.
Qed.

(** [float(d)] is exact for [0 < d < 2^53]. *)
Lemma py_float_of_int_exact (d : Z) :
  0 < d < 2 ^ 53 ->
  exists md ed,
    py_float_of_int d = Ok (S754_finite false md ed) /\
    -52 <= ed <= 0 /\ Zpos md = d * 2 ^ (- ed) /\
    Zdigits2 (Zpos md) = 53.
Proof.
  intros Hd. destruct d as [|p|p]; try lia.
  unfold py_float_of_int. cbn [binary_normalize]. unfold binary_round.
  pose proof (digits2_pos_bounds p) as Hdp.
  set (dp := Zpos (digits2_pos p)) in *.
  assert (Hdp53 : dp <= 53).
  { change dp with (Zdigits2 (Zpos p)). apply Zdigits2_le; lia. }
  assert (Hdp1 : 1 <= dp) by (unfold dp; lia).
  rewrite fexp_eq. replace (Z.max (dp + 0 - 53) (-1074)) with (dp - 53) by lia.
  assert (Hal : exists mz,
             shl_align p 0 (dp - 53) = (mz, dp - 53) /\
             Zpos mz = Zpos p * 2 ^ (53 - dp)).
  { unfold shl_align. destruct (dp - 53 - 0) as [|k|k] eqn:Hk; try lia.
    - exists p. replace (dp - 53) with 0 by lia. replace (53 - dp) with 0 by lia.
      split; [reflexivity | cbn; lia].
    - exists (Pos.iter xO p k). split; [reflexivity|].
      rewrite pos_iter_xO. do 2 f_equal. lia. }
  destruct Hal as (mz & -> & Hmz).
  assert (Hpw : 2 ^ 52 = 2 ^ (dp - 1) * 2 ^ (53 - dp)).
  { rewrite <- pow2_split by lia. f_equal. lia. }
  assert (Hpw' : 2 ^ 53 = 2 ^ dp * 2 ^ (53 - dp)).
  { rewrite <- pow2_split by lia. f_equal. lia. }
  pose proof (pow2_pos (53 - dp) ltac:(lia)) as Hpp.
  assert (Hdz : Zdigits2 (Zpos mz) = 53).
  { apply Z.le_antisymm.
    - apply Zdigits2_le; try lia. rewrite Hmz, Hpw'. nia.
    - apply Zdigits2_ge; try lia. change (53 - 1) with 52. rewrite Hmz, Hpw. nia. }
  destruct (binary_round_aux_spec false (Zpos mz) (dp - 53) ltac:(lia))
    as (m1 & _ & Hex & ->).
  assert (Hs1 : shift_amount (Zpos mz) (dp - 53) = 0).
  { unfold shift_amount. rewrite Hdz, fexp_eq. lia. }
  rewrite Hs1 in *. cbn [Z.pow] in Hex.
  rewrite Z.mod_1_r, Z.div_1_r in Hex. specialize (Hex eq_refl). subst m1.
  replace (dp - 53 + 0) with (dp - 53) by lia. rewrite Hs1.
  cbn [Z.pow]. rewrite Z.div_1_r. cbn [float_of_rounded].
  change (emax - prec) with 971.
  replace (dp - 53 + 0 <=? 971) with true by (symmetry; lia).
  exists mz, (dp - 53 + 0). split; [reflexivity|].
  split; [lia|]. split; [|exact Hdz].
  rewrite Hmz. do 2 f_equal. lia.
Qed.

(** Rounding a value that is at least an integer [0 < N < 2^53] overflows or
    gives a float whose integer part is at least [N]. *)
Lemma round_lower (M E N : Z) :
  0 < M -> 0 < N < 2 ^ 53 ->
  N * 2 ^ Z.max 0 (- E) <= M * 2 ^ Z.max 0 E ->
  binary_round_aux prec emax false M E loc_Exact = S754_infinity false \/
  exists k,
    py_int_of_float (binary_round_aux prec emax false M E loc_Exact) = Ok k /\
    N <= k.
Proof.
  intros HM HN Hle.
  destruct (binary_round_aux_spec false M E HM) as (m1 & Hb & _ & ->).
  set (n1 := shift_amount M E) in *.
  assert (Hn1 : 0 <= n1) by apply shift_amount_nonneg.
  pose proof (pow2_pos n1 Hn1) as Hpn1.
  assert (Hdiv0 : 0 <= M / 2 ^ n1) by (apply Z.div_pos; lia).
  assert (Hm1 : 0 <= m1) by lia.
  set (e1 := E + n1) in *.
  set (n2 := shift_amount m1 e1).
  assert (Hn2 : 0 <= n2) by apply shift_amount_nonneg.
  pose proof (pow2_pos n2 Hn2) as Hpn2.
  set (e2 := e1 + n2).
  set (q := m1 / 2 ^ n2).
  assert (Hq0 : 0 <= q) by (apply Z.div_pos; lia).
  assert (Hcomp : M / 2 ^ (n1 + n2) <= q).
  { rewrite pow2_split, <- Z.div_div by lia. apply Z.div_le_mono; lia. }
  assert (Hval : (e2 <= 0 /\ N * 2 ^ (- e2) <= q) \/ (0 < e2 /\ N <= q * 2 ^ e2)).
  { destruct (Z.le_gt_cases e2 0) as [He2|He2].
    - left. split; [exact He2|].
      replace (Z.max 0 (- E)) with (- e2 + (n1 + n2)) in Hle by lia.
      replace (Z.max 0 E) with 0 in Hle by lia.
      rewrite pow2_split in Hle by lia. cbn [Z.pow] in Hle.
      pose proof (pow2_pos (n1 + n2) ltac:(lia)).
      etransitivity; [|exact Hcomp].
      apply Z.div_le_lower_bound; lia.
    - right. split; [exact He2|].
      pose proof (pow2_pos e2 ltac:(lia)) as Hpe2.
      assert (Hbig : 2 ^ 52 <= q -> N <= q * 2 ^ e2).
      { intros Hq. assert (2 ^ 1 <= 2 ^ e2) by (apply Z.pow_le_mono_r; lia).
        change (2 ^ 53) with (2 ^ 52 * 2 ^ 1) in HN. nia. }
      destruct (Z.eq_dec n2 0) as [Hz2|Hnz2].
      + assert (Hqm : q = m1) by (unfold q; rewrite Hz2; apply Z.div_1_r).
        destruct (Z.eq_dec n1 0) as [Hz1|Hnz1].
        * assert (M <= m1) by (rewrite Hz1 in Hb; cbn [Z.pow] in Hb;
                                rewrite Z.div_1_r in Hb; lia).
          replace (Z.max 0 (- E)) with 0 in Hle by lia.
          replace (Z.max 0 E) with e2 in Hle by lia.
          cbn [Z.pow] in Hle. rewrite Hqm. nia.
        * apply Hbig. rewrite Hqm.
          assert (Hd : Zdigits2 M = 53 + n1).
          { unfold e2, e1, n1, shift_amount in *. rewrite fexp_eq in *. lia. }
          pose proof (Zdigits2_bounds M HM) as [Hlo _]. rewrite Hd in Hlo.
          replace (53 + n1 - 1) with (n1 + 52) in Hlo by lia.
          rewrite pow2_split in Hlo by lia.
          assert (2 ^ 52 <= M / 2 ^ n1) by (apply Z.div_le_lower_bound; lia).
          lia.
      + apply Hbig.
        assert (Hd : Zdigits2 m1 = 53 + n2).
        { unfold e2, n2, shift_amount in *. rewrite fexp_eq in *. lia. }
        assert (Hm1pos : 0 < m1).
        { destruct (Z.eq_dec m1 0) as [Hz|]; [|lia].
          assert (Zdigits2 m1 = 0) by (rewrite Hz; reflexivity). lia. }
        pose proof (Zdigits2_bounds m1 Hm1pos) as [Hlo _]. rewrite Hd in Hlo.
        replace (53 + n2 - 1) with (n2 + 52) in Hlo by lia.
        rewrite pow2_split in Hlo by lia.
        apply Z.div_le_lower_bound; lia. }
  destruct Hval as [[He2 Hq]|[He2 Hq]].
  - pose proof (pow2_pos (- e2) ltac:(lia)) as Hpe2.
    destruct q as [|p|p] eqn:Hqe; try lia. cbn [float_of_rounded].
    change (emax - prec) with 971.
    replace (e2 <=? 971) with true by (symmetry; lia).
    right. cbn [py_int_of_float].
    destruct (0 <=? e2) eqn:H0.
    + assert (e2 = 0) as Heq by lia. rewrite Heq in *. cbn [Z.opp Z.pow] in *.
      eexists; split; [reflexivity|]. lia.
    + eexists; split; [reflexivity|]. apply Z.div_le_lower_bound; lia.
  - pose proof (pow2_pos e2 ltac:(lia)) as Hpe2.
    destruct q as [|p|p] eqn:Hqe; try lia. cbn [float_of_rounded].
    change (emax - prec) with 971.
    destruct (e2 <=? 971); [|now left].
    right. cbn [py_int_of_float].
    replace (0 <=? e2) with true by (symmetry; lia).
    eexists; split; [reflexivity|]. lia.
Qed.


Lemma two_52 : 2 ^ 52 = 4503599627370496.
Proof. reflexivity. Qed.

Lemma compare_cont_Z (m c : positive) :
  Pos.compare_cont Eq m c = Z.compare (Zpos m) (Zpos c).
Proof. reflexivity. Qed.

Lemma valid_finite_inv (s : bool) (m : positive) (e : Z) :
  valid_binary prec emax (S754_finite s m e) = true ->
  Zpos m < 2 ^ 53 /\ -1074 <= e <= 971 /\ (2 ^ 52 <= Zpos m \/ e = -1074).
Proof.
  cbn [valid_binary]. unfold bounded, canonical_mantissa.
  rewrite fexp_eq. change (emax - prec) with 971.
  intros Hv. apply andb_true_iff in Hv. destruct Hv as [Hc He].
  apply Z.eqb_eq in Hc. apply Z.leb_le in He.
  pose proof (digits2_pos_bounds m) as [Hlo Hhi].
  set (d := Zpos (digits2_pos m)) in *.
  assert (Hd : d <= 53) by lia.
  split; [|split; [lia|]].
  - assert (2 ^ d <= 2 ^ 53) by (apply Z.pow_le_mono_r; lia). lia.
  - destruct (Z.eq_dec e (-1074)) as [->|Hne]; [now right|left].
    assert (d = 53) as Hd53 by lia. rewrite Hd53 in Hlo. exact Hlo.
Qed.

Lemma interpolation_range_inv (x : spec_float) :
  valid_binary prec emax x = true ->
  interpolation_range x = true ->
  (exists s, x = S754_zero s) \/
  (exists m e, x = S754_finite false m e /\ e <= -52 /\ Zpos m <= 2 ^ (- e)).
Proof.
  intros Hv. unfold interpolation_range, SFleb, float0, float1.
  destruct x as [s|s| |s m e]; cbn [SFcompare]; try discriminate.
  - intros _. left. now exists s.
  - destruct s; discriminate.
  - destruct s; [discriminate|]. cbn [andb].
    apply valid_finite_inv in Hv. destruct Hv as (Hm & He & _).
    intros Hr. right. exists m, e. split; [reflexivity|].
    destruct (Z.compare_spec e (-52)) as [Heq|Hlt|Hgt]; try discriminate.
    + subst e. split; [lia|].
      rewrite compare_cont_Z in Hr.
      replace (- -52) with 52 by lia. rewrite two_52.
      destruct (Z.compare_spec (Zpos m) 4503599627370496); try discriminate; lia.
    + split; [lia|].
      assert (2 ^ 53 <= 2 ^ (- e)) by (apply Z.pow_le_mono_r; lia). lia.
Qed.

Lemma undersample_range_inv (x : spec_float) :
  valid_binary prec emax x = true ->
  undersample_range x = true ->
  exists m e, x = S754_finite true m e /\ e <= -53 /\ Zpos m <= 2 ^ (- e).
Proof.
  intros Hv. unfold undersample_range, SFltb, float0, float_m1.
  destruct x as [s|s| |s m e]; cbn [SFcompare]; try discriminate.
  - destruct s; discriminate.
  - destruct s; [|discriminate].
    apply valid_finite_inv in Hv. destruct Hv as (Hm & He & Hn).
    intros Hr. exists m, e. split; [reflexivity|].
    assert (He53 : e <= -53).
    { destruct (Z.compare_spec (-52) e) as [Heq|Hlt|Hgt]; try discriminate; [|lia].
      subst e. exfalso.
      rewrite compare_cont_Z in Hr. rewrite two_52 in Hn.
      destruct (Z.compare_spec 4503599627370496 (Zpos m)); cbn [CompOpp] in Hr;
        try discriminate; lia. }
    split; [exact He53|].
    assert (2 ^ 53 <= 2 ^ (- e)) by (apply Z.pow_le_mono_r; lia). lia.
Qed.




(** ** The three float modes of the class size *)

Lemma interpolate_core (x : spec_float) (d : Z) :
  valid_binary prec emax x = true ->
  interpolation_range x = true ->
  0 <= d < 2 ^ 53 ->
  exists y k,
    py_float_of_int d = Ok y /\
    py_int_of_float (SFmul prec emax x y) = Ok k /\
    float_floor (SFmul prec emax x y) = Some k /\
    0 <= k <= d.
Proof.
  intros Hv Hr Hd.
  destruct (interpolation_range_inv x Hv Hr) as [[s ->]|(m & e & -> & He & Hm)].
  - destruct (Z.eq_dec d 0) as [->|Hne].
    + exists (S754_zero false), 0. cbn. repeat split; lia.
    + destruct (py_float_of_int_exact d ltac:(lia)) as (md & ed & Hy & _).
      exists (S754_finite false md ed), 0. cbn. repeat split; try lia. exact Hy.
  - destruct (Z.eq_dec d 0) as [->|Hne].
    + exists (S754_zero false), 0. cbn. repeat split; lia.
    + destruct (py_float_of_int_exact d ltac:(lia)) as (md & ed & Hy & Hed & Hmd & _).
      exists (S754_finite false md ed). cbn [SFmul xorb].
      destruct (round_upper (Zpos (m * md)) (e + ed) d) as (k & Hk1 & Hk2 & Hk3);
        try lia.
      { rewrite Pos2Z.inj_mul, Hmd.
        replace (- (e + ed)) with (- e + - ed) by lia.
        rewrite pow2_split by lia.
        pose proof (pow2_pos (- ed) ltac:(lia)). nia. }
      exists k. auto.
Qed.

Lemma mul_one_exact (d : Z) :
  0 <= d < 2 ^ 53 ->
  exists y,
    py_float_of_int d = Ok y /\
    py_int_of_float (SFmul prec emax float1 y) = Ok d.
Proof.
  intros Hd. destruct (Z.eq_dec d 0) as [->|Hne].
  - exists (S754_zero false). split; reflexivity.
  - destruct (py_float_of_int_exact d ltac:(lia)) as (md & ed & Hy & Hed & Hmd & _).
    exists (S754_finite false md ed). split; [exact Hy|].
    unfold float1. cbn [SFmul xorb].
    pose proof (pow2_pos (- ed) ltac:(lia)) as Hp.
    assert (HM : Zpos (4503599627370496 * md) = d * 2 ^ (52 - ed)).
    { rewrite Pos2Z.inj_mul, Hmd.
      replace (52 - ed) with (52 + - ed) by lia. rewrite pow2_split by lia.
      rewrite two_52. lia. }
    destruct (round_upper (Zpos (4503599627370496 * md)) (-52 + ed) d)
      as (k & Hk1 & _ & Hk3); try lia.
    { rewrite HM. replace (- (-52 + ed)) with (52 - ed) by lia. lia. }
    destruct (round_lower (Zpos (4503599627370496 * md)) (-52 + ed) d)
      as [Hinf|(k' & Hk' & Hge)]; try lia.
    { rewrite HM. replace (Z.max 0 (- (-52 + ed))) with (52 - ed) by lia.
      replace (Z.max 0 (-52 + ed)) with 0 by lia. cbn [Z.pow]. lia. }
    + rewrite Hinf in Hk1. discriminate.
    + rewrite Hk1 in Hk'. injection Hk' as <-. rewrite Hk1. f_equal. lia.
Qed.

Lemma undersample_core (x : spec_float) (n : Z) :
  valid_binary prec emax x = true ->
  undersample_range x = true ->
  0 < n < 2 ^ 53 ->
  exists k,
    (p <- py_mul_int_float n (SFopp x) ;; py_int_of_float p) = Ok k /\
    0 <= k <= n.
Proof.
  intros Hv Hr Hn.
  destruct (undersample_range_inv x Hv Hr) as (m & e & -> & He & Hm).
  destruct (py_float_of_int_exact n Hn) as (md & ed & Hy & Hed & Hmd & _).
  unfold py_mul_int_float. rewrite Hy. cbn [bind SFopp negb SFmul xorb].
  destruct (round_upper (Zpos (md * m)) (ed + e) n) as (k & Hk1 & _ & Hk3);
    try lia.
  { rewrite Pos2Z.inj_mul, Hmd.
    replace (- (ed + e)) with (- ed + - e) by lia.
    rewrite pow2_split by lia.
    pose proof (pow2_pos (- ed) ltac:(lia)). nia. }
  exists k. auto.
Qed.


(** ** The rounded product against the exact product *)

Lemma floor_ceil_div (a b : Z) :
  0 < b ->
  a / b * b <= a /\ a <= - (- a / b) * b /\ - (- a / b) <= a / b + 1.
Proof.
  intros Hb.
  pose proof (Z.div_mod a b ltac:(lia)) as H1.
  pose proof (Z.mod_pos_bound a b Hb) as H2.
  pose proof (Z.div_mod (- a) b ltac:(lia)) as H3.
  pose proof (Z.mod_pos_bound (- a) b Hb) as H4.
  repeat split; nia.
Qed.

Lemma scaled_floor_nonpos (n : Z) (m : positive) (e : Z) :
  e <= 0 ->
  scaled_floor n (S754_finite false m e) = Some (n * Zpos m / 2 ^ (- e)).
Proof.
  intros He. unfold scaled_floor. cbv zeta.
  destruct (Z.leb_spec 0 e) as [H0|H0]; [|reflexivity].
  assert (e = 0) as -> by lia. cbn [Z.opp].
  now rewrite Z.pow_0_r, Z.mul_1_r, Z.div_1_r.
Qed.

Lemma scaled_ceil_nonpos (n : Z) (m : positive) (e : Z) :
  e <= 0 ->
  scaled_ceil n (S754_finite false m e)
  = Some (- (- (n * Zpos m) / 2 ^ (- e))).
Proof.
  intros He. unfold scaled_ceil. cbv zeta.
  destruct (Z.leb_spec 0 e) as [H0|H0]; [|reflexivity].
  assert (e = 0) as -> by lia. cbn [Z.opp].
  rewrite Z.pow_0_r, Z.mul_1_r, Z.div_1_r. f_equal. lia.
Qed.

Lemma round_between (M E F C : Z) :
  0 < M -> E <= 0 -> 0 <= F -> C < 2 ^ 53 ->
  F * 2 ^ (- E) <= M -> M <= C * 2 ^ (- E) ->
  exists k,
    py_int_of_float (binary_round_aux prec emax false M E loc_Exact) = Ok k /\
    float_floor (binary_round_aux prec emax false M E loc_Exact) = Some k /\
    F <= k <= C.
Proof.
  intros HM HE HF HC Hlo Hhi.
  pose proof (pow2_pos (- E) ltac:(lia)) as Hp.
  assert (HC0 : 0 < C) by nia.
  assert (HFC : F <= C) by nia.
  destruct (round_upper M E C HM HE ltac:(lia) Hhi) as (k & Hk1 & Hk2 & Hk3).
  exists k. split; [exact Hk1|]. split; [exact Hk2|].
  destruct (Z.eq_dec F 0) as [->|HF0]; [lia|].
  destruct (round_lower M E F HM ltac:(lia)) as [Hinf|(k' & Hk' & Hge)].
  - replace (Z.max 0 (- E)) with (- E) by lia.
    replace (Z.max 0 E) with 0 by lia. rewrite Z.pow_0_r. lia.
  - rewrite Hinf in Hk1. discriminate.
  - rewrite Hk1 in Hk'. injection Hk' as <-. lia.
Qed.

(** The binary64 product of a positive factor [m * 2^e] ([e <= 0]) and the
    float of a positive integer [n]: its integer part lies between the floor
    and the ceiling of the exact product. *)
Lemma product_between (n : Z) (m md : positive) (e ed F C : Z) :
  0 < n -> e <= 0 -> -52 <= ed <= 0 -> Zpos md = n * 2 ^ (- ed) ->
  scaled_floor n (S754_finite false m e) = Some F ->
  scaled_ceil n (S754_finite false m e) = Some C ->
  C < 2 ^ 53 ->
  exists k,
    py_int_of_float
      (binary_round_aux prec emax false (Zpos (m * md)) (e + ed) loc_Exact)
    = Ok k /\
    float_floor
      (binary_round_aux prec emax false (Zpos (m * md)) (e + ed) loc_Exact)
    = Some k /\
    F <= k <= C.
Proof.
  intros Hn He Hed Hmd HF HC Hlt.
  rewrite scaled_floor_nonpos in HF by exact He.
  rewrite scaled_ceil_nonpos in HC by exact He.
  injection HF as <-. injection HC as <-.
  pose proof (pow2_pos (- e) ltac:(lia)) as Hpe.
  pose proof (pow2_pos (- ed) ltac:(lia)) as Hped.
  destruct (floor_ceil_div (n * Zpos m) (2 ^ (- e)) Hpe) as (Hfl & Hce & _).
  assert (Hfl0 : 0 <= n * Z.pos m / 2 ^ (- e)).
  { apply Z.div_pos; lia. }
  apply round_between; try lia.
  - rewrite Pos2Z.inj_mul, Hmd.
    replace (- (e + ed)) with (- e + - ed) by lia.
    rewrite pow2_split by lia. nia.
  - rewrite Pos2Z.inj_mul, Hmd.
    replace (- (e + ed)) with (- e + - ed) by lia.
    rewrite pow2_split by lia. nia.
Qed.

Lemma interpolate_between (x : spec_float) (d : Z) :
  valid_binary prec emax x = true ->
  interpolation_range x = true ->
  0 <= d < 2 ^ 53 ->
  exists y fl ce k,
    py_float_of_int d = Ok y /\
    scaled_floor d x = Some fl /\
    scaled_ceil d x = Some ce /\
    py_int_of_float (SFmul prec emax x y) = Ok k /\
    float_floor (SFmul prec emax x y) = Some k /\
    fl <= k <= ce /\ ce <= fl + 1 /\ 0 <= k <= d.
Proof.
  intros Hv Hr Hd.
  destruct (interpolation_range_inv x Hv Hr) as [[s ->]|(m & e & -> & He & Hm)].
  - destruct (Z.eq_dec d 0) as [->|Hne].
    + exists (S754_zero false), 0, 0, 0. cbn. repeat split; lia.
    + destruct (py_float_of_int_exact d ltac:(lia)) as (md & ed & Hy & _).
      exists (S754_finite false md ed), 0, 0, 0. cbn.
      repeat split; try lia. exact Hy.
  - pose proof (pow2_pos (- e) ltac:(lia)) as Hpe.
    rewrite scaled_floor_nonpos, scaled_ceil_nonpos by lia.
    destruct (floor_ceil_div (d * Zpos m) (2 ^ (- e)) Hpe) as (Hfl & Hce & H1).
    destruct (Z.eq_dec d 0) as [->|Hne].
    + exists (S754_zero false), 0, 0, 0. rewrite Z.mul_0_l. cbn.
      repeat split; lia.
    + destruct (py_float_of_int_exact d ltac:(lia)) as (md & ed & Hy & Hed & Hmd & _).
      assert (HC : - (- (d * Zpos m) / 2 ^ (- e)) <= d).
      { enough (- d <= - (d * Zpos m) / 2 ^ (- e)) by lia.
        apply Z.div_le_lower_bound; [lia|]. nia. }
      assert (HF : 0 <= d * Zpos m / 2 ^ (- e)) by (apply Z.div_pos; lia).
      destruct (product_between d m md e ed _ _ ltac:(lia) ltac:(lia) Hed Hmd
                  (scaled_floor_nonpos d m e ltac:(lia))
                  (scaled_ceil_nonpos d m e ltac:(lia)) ltac:(lia))
        as (k & Hk1 & Hk2 & Hk3).
      exists (S754_finite false md ed), (d * Zpos m / 2 ^ (- e)),
        (- (- (d * Zpos m) / 2 ^ (- e))), k.
      cbn [SFmul xorb]. repeat split; try assumption; lia.
Qed.


(** ** C7: interpolation *)

(** C7, counterexample. Classes of sizes 1 and 11 and the factor 0.7, that
    is the binary64 value [6305039478318694 * 2^-53], which lies below 7/10:
    its exact product with 10 lies below 7, so
    [min_size + floor(f * (max_size - min_size))] is [1 + 6 = 7]; the code
    multiplies in binary64, the product rounds to [7.0], and the class size
    is 8. *)
Lemma c7_counterexample :
  valid_binary prec emax float_07 = true /\
  interpolation_range float_07 = true /\
  py_min (map len [[0]; [1; 2; 3; 4; 5; 6; 7; 8; 9; 10; 11]]) = Ok 1 /\
  py_max (map len [[0]; [1; 2; 3; 4; 5; 6; 7; 8; 9; 10; 11]]) = Ok 11 /\
  resolve_class_size [[0]; [1; 2; 3; 4; 5; 6; 7; 8; 9; 10; 11]] (FFloat float_07)
  = Ok 8 /\
  interpolated_size 1 11 float_07 = Some 7.
Proof. repeat split; vm_compute; reflexivity. Qed.

(** C7, amended. For a binary64 factor [x] with [0.0 <= x <= 1.0] the class
    size is [min_size + floor(p)], where [p] is the product of [x] and
    [max_size - min_size] rounded to binary64 (to nearest, ties to even). It
    is at least [min_size + floor(x * (max_size - min_size))] for the exact
    product, at most [min_size] plus the ceiling of the exact product, hence
    equal to the exact formula or one more, and it lies between [min_size]
    and [max_size]; [0.0] gives [min_size], [1.0] gives [max_size], and the
    two string aliases stand for these factors. Class sizes are list
    lengths, taken below [2^53]. *)
Theorem c7_interpolation {A : Type} (classes : list (list A)) (x : spec_float)
  (mn mx : Z) :
  valid_binary prec emax x = true ->
  interpolation_range x = true ->
  py_min (map len classes) = Ok mn ->
  py_max (map len classes) = Ok mx ->
  mx < 2 ^ 53 ->
  (exists k0 ce k,
      interpolated_size mn mx x = Some k0 /\
      scaled_ceil (mx - mn) x = Some ce /\
      rounded_interpolated_size mn mx x = Some k /\
      resolve_class_size classes (FFloat x) = Ok k /\
      k0 <= k <= mn + ce /\ mn + ce <= k0 + 1 /\
      mn <= k <= mx) /\
  resolve_class_size classes (FFloat float0) = Ok mn /\
  resolve_class_size classes (FFloat float1) = Ok mx /\
  resolve_alias (Some (FStr "undersampling")) = Ok (FFloat float0) /\
  resolve_alias (Some (FStr "oversampling")) = Ok (FFloat float1).
Proof.
  intros Hv Hr Hmn Hmx Hlt.
  pose proof (py_min_le_max _ _ _ Hmn Hmx) as Hle.
  pose proof (py_min_len_nonneg _ _ Hmn) as Hmn0.
  assert (Hd : 0 <= mx - mn < 2 ^ 53) by lia.
  unfold resolve_class_size. rewrite Hmn, Hmx. cbn [bind compute_class_size].
  rewrite Z.abs_eq by lia.
  split; [|split; [|split; [|split; reflexivity]]].
  - rewrite Hr.
    destruct (interpolate_between x (mx - mn) Hv Hr Hd)
      as (y & fl & ce & k & Hy & Hfl & Hce & Hk1 & Hk2 & Hk3 & Hk4 & Hk5).
    exists (mn + fl), ce, (mn + k).
    unfold interpolated_size, rounded_interpolated_size, py_mul_float_int.
    rewrite Hy, Hfl. cbn [bind]. rewrite Hk1, Hk2. cbn [bind option_map].
    repeat split; try assumption; lia.
  - change (interpolation_range float0) with true. cbv iota.
    unfold py_mul_float_int.
    destruct (Z.eq_dec (mx - mn) 0) as [Hz|Hnz].
    + rewrite Hz. cbn. now rewrite Z.add_0_r.
    + destruct (py_float_of_int_exact (mx - mn) ltac:(lia)) as (md & ed & -> & _).
      cbn. now rewrite Z.add_0_r.
  - change (interpolation_range float1) with true. cbv iota.
    unfold py_mul_float_int.
    destruct (mul_one_exact (mx - mn) Hd) as (y & -> & Hk).
    cbn [bind]. rewrite Hk. cbn [bind]. f_equal. lia.
Qed.

Lemma c7_witness :
  exists k0 ce k,
    interpolated_size 1 11 float_07 = Some k0 /\
    scaled_ceil (11 - 1) float_07 = Some ce /\
    rounded_interpolated_size 1 11 float_07 = Some k /\
    resolve_class_size [[0]; [1; 2; 3; 4; 5; 6; 7; 8; 9; 10; 11]]
      (FFloat float_07) = Ok k /\
    k0 <= k <= 1 + ce /\ 1 + ce <= k0 + 1 /\
    1 <= k <= 11.
Proof.
  destruct (c7_interpolation [[0]; [1; 2; 3; 4; 5; 6; 7; 8; 9; 10; 11]]
              float_07 1 11 eq_refl eq_refl eq_refl eq_refl eq_refl)
    as (Hk & _).
  exact Hk.
Defined.

(** ** C2: the ratio modes *)




(** ** Partitions built from flat labels *)

Lemma indices_of_class_in (n k : nat) (ls : list pyval) :
  forall (base : nat) (v : pyval),
    In v (indices_of_class n k base ls) ->
    exists i label,
      v = PInt (Z.of_nat (base + i)) /\
      nth_error ls i = Some label /\
      class_of n label = Some k.
Proof.
  induction ls as [|label rest IH]; intros base v Hin; cbn [indices_of_class] in Hin.
  - destruct Hin.
  - assert (Hrest : In v (indices_of_class n k (S base) rest) ->
                    exists i l, v = PInt (Z.of_nat (base + i)) /\
                                nth_error (label :: rest) i = Some l /\
                                class_of n l = Some k).
    { intros H. apply IH in H. destruct H as (i & l & -> & Hi & Hl).
      exists (S i), l. repeat split; try assumption. do 2 f_equal. lia. }
    unfold is_class in Hin.
    destruct (class_of n label) as [j|] eqn:Hc; [|now apply Hrest].
    destruct (Nat.eqb j k) eqn:Hjk; [|now apply Hrest].
    destruct Hin as [<-|Hin]; [|now apply Hrest].
    apply Nat.eqb_eq in Hjk. subst j.
    exists 0%nat, label. rewrite Nat.add_0_r. auto.
Qed.

Lemma indices_of_class_NoDup (n k : nat) (ls : list pyval) :
  forall base, NoDup (indices_of_class n k base ls).
Proof.
  induction ls as [|label rest IH]; intros base; cbn [indices_of_class].
  - constructor.
  - destruct (is_class n k label); [|apply IH].
    constructor; [|apply IH].
    intros Hin. apply indices_of_class_in in Hin.
    destruct Hin as (i & _ & Heq & _). injection Heq as Heq. lia.
Qed.

(** The classes resolved from flat labels hold distinct indices. *)
Lemma flat_branch_NoDup (nc : Z) (ls : list pyval) (classes : list (list pyval)) :
  flat_branch nc ls = Ok classes ->
  forall class_l, In class_l classes -> NoDup class_l.
Proof.
  intros Hf class_l Hin. apply flat_branch_spec in Hf. destruct Hf as [Hlen Hnth].
  apply In_nth_error in Hin. destruct Hin as (k & Hk).
  assert (Hlt : (k < Z.to_nat nc)%nat).
  { rewrite <- Hlen. apply nth_error_Some. congruence. }
  rewrite (Hnth k Hlt) in Hk. injection Hk as <-. apply indices_of_class_NoDup.
Qed.

Lemma label_class_of_index (n k : nat) (ls : list pyval) (v : pyval) :
  In v (indices_of_class n k 0 ls) -> label_class n ls v = Some k.
Proof.
  intros Hin. apply indices_of_class_in in Hin.
  destruct Hin as (i & label & -> & Hi & Hc). cbn [Nat.add label_class].
  destruct (Z.ltb_spec (Z.of_nat i) 0) as [Hneg|_]; [lia|].
  now rewrite Nat2Z.id, Hi.
Qed.

Lemma filter_all {A : Type} (f : A -> bool) (l : list A) :
  (forall x, In x l -> f x = true) -> filter f l = l.
Proof.
  induction l as [|a l IH]; intros Hall; cbn [filter]; [reflexivity|].
  rewrite (Hall a (or_introl eq_refl)). f_equal. apply IH.
  intros x Hx. apply Hall. now right.
Qed.

Lemma filter_none {A : Type} (f : A -> bool) (l : list A) :
  (forall x, In x l -> f x = false) -> filter f l = [].
Proof.
  induction l as [|a l IH]; intros Hall; cbn [filter]; [reflexivity|].
  rewrite (Hall a (or_introl eq_refl)). apply IH.
  intros x Hx. apply Hall. now right.
Qed.

Lemma count_in_concat (n : nat) (ls : list pyval) (cs : Z) (c : nat)
  (emissions : list (list pyval)) :
  forall start,
    (forall j e, nth_error emissions j = Some e ->
                 len e = cs /\
                 forall v, In v e -> label_class n ls v = Some (start + j)%nat) ->
    len (filter (in_class n ls c) (concat emissions))
    = if (Nat.leb start c && Nat.ltb c (start + length emissions))%bool
      then cs else 0.
Proof.
  induction emissions as [|e es IH]; intros start Hall; cbn [concat length].
  - cbn [filter]. rewrite Nat.add_0_r.
    destruct (Nat.leb start c) eqn:H1; destruct (Nat.ltb c start) eqn:H2;
      cbn [andb]; try reflexivity.
    apply Nat.leb_le in H1. apply Nat.ltb_lt in H2. lia.
  - rewrite filter_app, len_app.
    destruct (Hall 0%nat e eq_refl) as [Hlen Hlab].
    rewrite (IH (S start)).
    2:{ intros j e' Hj. destruct (Hall (S j) e' Hj) as [Hl' Hlab'].
        split; [exact Hl'|]. intros v Hv. rewrite (Hlab' v Hv). f_equal. lia. }
    destruct (Nat.eq_dec start c) as [->|Hne].
    + rewrite filter_all.
      2:{ intros v Hv. unfold in_class. rewrite (Hlab v Hv), Nat.add_0_r.
          apply Nat.eqb_refl. }
      rewrite Hlen.
      replace (Nat.leb c c && Nat.ltb c (c + S (length es)))%bool with true.
      2:{ symmetry. apply andb_true_iff. split;
          [apply Nat.leb_le | apply Nat.ltb_lt]; lia. }
      replace (Nat.leb (S c) c) with false
        by (symmetry; apply Nat.leb_gt; lia).
      cbn [andb]. lia.
    + rewrite filter_none.
      2:{ intros v Hv. unfold in_class. rewrite (Hlab v Hv), Nat.add_0_r.
          now apply Nat.eqb_neq. }
      replace (S start + length es)%nat with (start + S (length es))%nat by lia.
      replace (Nat.leb (S start) c) with (Nat.leb start c).
      2:{ destruct (Nat.leb start c) eqn:H1; symmetry.
          - apply Nat.leb_le in H1. apply Nat.leb_le. lia.
          - apply Nat.leb_gt in H1. apply Nat.leb_gt. lia. }
      unfold len at 1. cbn [length]. lia.
Qed.

Section FlatCount.
Context {G : Type} `{RandomLaws G}.

(** With flat labels, mapping every entry of the built sequence back to its
    class finds exactly [class_size] entries of each class. *)
Lemma flat_count_per_class (ds : dataset) (nc : Z) (sh : bool)
  (sf : option factor) (ls : list pyval) (cbt : string) (g g' : G)
  (self : sampler) :
  length ls = ds_len ds ->
  init ds nc sh sf (Some ls) None cbt g = (Ok self, g') ->
  forall c, (c < Z.to_nat nc)%nat ->
    len (filter (in_class (Z.to_nat nc) ls c) (indices self)) = class_size self.
Proof.
  intros Hlen Hinit c Hc.
  pose proof (init_emissions _ _ _ _ _ _ _ _ _ _ Hinit) as (es & Hes & Hn & Hem).
  apply init_inv in Hinit. destruct Hinit as (Hprep & _ & _).
  apply prepare_partition in Hprep. unfold resolved_partition in Hprep.
  cbn [acquire_labels] in Hprep.
  destruct (py_assert _) in Hprep; cbn [bind] in Hprep; [|discriminate].
  unfold resolve_labels in Hprep. rewrite Hlen, Nat.eqb_refl in Hprep.
  apply flat_branch_spec in Hprep. destruct Hprep as [_ Hflat].
  rewrite Hes.
  rewrite (count_in_concat (Z.to_nat nc) ls (class_size self) c es 0%nat).
  - rewrite Hn. cbn [Nat.leb andb Nat.add].
    replace (Nat.ltb c (Z.to_nat nc)) with true
      by (symmetry; now apply Nat.ltb_lt).
    reflexivity.
  - intros j e Hj.
    assert (Hjlt : (j < Z.to_nat nc)%nat).
    { rewrite <- Hn. apply nth_error_Some. congruence. }
    destruct (Hem j Hjlt) as (class_l & e' & Hcl & He' & Hemit).
    rewrite Hj in He'. injection He' as <-.
    rewrite (Hflat j Hjlt) in Hcl. injection Hcl as <-.
    split; [exact (emission_len _ _ _ Hemit)|]. intros v Hv. cbn [Nat.add].
    apply label_class_of_index. exact (emission_in _ _ _ v Hemit Hv).
Qed.
End FlatCount.

(** * Further properties of the constructor *)

(** ** Configuration errors and label acquisition *)

Lemma resolve_alias_some (f : factor) :
  exists f', resolve_alias (Some f) = Ok f'.
Proof.
  destruct f as [s|x|n]; cbn [resolve_alias]; eauto.
  destruct (String.eqb s "oversampling"); eauto.
  destruct (String.eqb s "undersampling"); eauto.
Qed.

Section Configuration.
Context {G : Type} `{RandomSource G}.

(** Lines 43-54. A missing [sampling_factor] raises [Exception] before
    anything else is looked at; with a factor, labels together with a
    callback raise [RuntimeError] whatever the callback type; otherwise a
    callback type other than "single" and "multi" fails the assertion. *)
Theorem init_configuration_errors (ds : dataset) (nc : Z) (sh : bool)
  (f : factor) (ls : option (list pyval)) (cb : option callback)
  (cbt : string) (g : G) :
  init ds nc sh None ls cb cbt g = (Raise PyException, g) /\
  (forall l c, init ds nc sh (Some f) (Some l) (Some c) cbt g
               = (Raise RuntimeError, g)) /\
  (ls = None \/ cb = None ->
   cbt <> "single"%string -> cbt <> "multi"%string ->
   init ds nc sh (Some f) ls cb cbt g = (Raise AssertionError, g)).
Proof.
  destruct (resolve_alias_some f) as (f' & Hf).
  split; [reflexivity|]. split.
  - intros l c. unfold init, prepare. rewrite Hf. reflexivity.
  - intros Hnone Hs Hm. unfold init, prepare. rewrite Hf. cbn [bind].
    apply String.eqb_neq in Hs, Hm.
    unfold acquire_labels. rewrite Hs, Hm.
    destruct Hnone as [-> | ->]; [|destruct ls]; reflexivity.
Qed.
End Configuration.

Lemma init_configuration_errors_witness :
  init ds8 2 false (Some (FInt 4)) (Some flat8) None "batch" 42
  = (Raise AssertionError, 42).
Proof.
  apply (init_configuration_errors ds8 2 false (FInt 4) (Some flat8) None
           "batch" 42).
  - now right.
  - discriminate.
  - discriminate.
Defined.

Lemma py_getitem_nth {A : Type} (l : list A) (i : nat) (x : A) :
  nth_error l i = Some x -> py_getitem l (Z.of_nat i) = Ok x.
Proof.
  intros Hi.
  assert (Hlt : (i < length l)%nat) by (apply nth_error_Some; congruence).
  unfold py_getitem, py_index.
  destruct (Z.ltb_spec (Z.of_nat i) 0) as [Hneg|_]; [lia|].
  cbv beta iota zeta.
  destruct (Z.ltb_spec (Z.of_nat i) 0) as [Hneg|_]; [lia|].
  destruct (Z.leb_spec (Z.of_nat (length l)) (Z.of_nat i)) as [Hge|_]; [lia|].
  cbn [orb bind]. now rewrite Nat2Z.id, Hi.
Qed.

Lemma firstn_succ_nth {A : Type} (l : list A) (n : nat) (x : A) :
  nth_error l n = Some x -> firstn (S n) l = firstn n l ++ [x].
Proof.
  revert n; induction l as [|h t IH]; intros [|n] Hn; cbn in *; try discriminate.
  - now injection Hn as ->.
  - f_equal. now apply IH.
Qed.

Lemma collect_labels_ok (cb : Z -> result pyval) (ls : list pyval) (n : nat) :
  (forall i x, nth_error ls i = Some x -> cb (Z.of_nat i) = Ok x) ->
  (n <= length ls)%nat ->
  collect_labels cb n = Ok (firstn n ls).
Proof.
  intros Hcb. induction n as [|n IH]; intros Hn; cbn [collect_labels].
  - reflexivity.
  - rewrite IH by lia. cbn [bind].
    destruct (nth_error ls n) as [x|] eqn:Hx.
    + rewrite (Hcb n x Hx). cbn [bind]. now rewrite (firstn_succ_nth ls n x Hx).
    + apply nth_error_None in Hx. lia.
Qed.

Lemma collect_labels_raise (cb : Z -> result pyval) (k : nat) (e : exn) :
  (forall i, (i < k)%nat -> is_ok (cb (Z.of_nat i)) = true) ->
  cb (Z.of_nat k) = Raise e ->
  forall n, (k < n)%nat -> collect_labels cb n = Raise e.
Proof.
  intros Hbelow Hk.
  assert (Hok : forall m, (m <= k)%nat -> is_ok (collect_labels cb m) = true).
  { induction m as [|m IH]; intros Hm; cbn [collect_labels]; [reflexivity|].
    specialize (IH ltac:(lia)). destruct (collect_labels cb m); [|discriminate].
    cbn [bind]. specialize (Hbelow m ltac:(lia)).
    destruct (cb (Z.of_nat m)); [reflexivity|discriminate]. }
  induction n as [|n IH]; intros Hn; [lia|]. cbn [collect_labels].
  destruct (Nat.eq_dec n k) as [->|Hne].
  - specialize (Hok k (le_n _)). destruct (collect_labels cb k); [|discriminate].
    cbn [bind]. now rewrite Hk.
  - now rewrite IH by lia.
Qed.

Section Callbacks.
Context {G : Type} `{RandomSource G}.

(** Lines 62-77. Labels read from the dataset (no labels, no callback),
    returned one index at a time by a "single" callback, or returned at once
    by a "multi" callback give the same construction as the same labels
    passed as [labels]. *)
Theorem init_labels_by_callback (ds : dataset) (nc : Z) (sh : bool)
  (sf : option factor) (ls : list pyval) (cb : callback) (cbt : string)
  (g : G) :
  length ls = ds_len ds ->
  ((forall i x, nth_error ls i = Some x -> ds_label ds (Z.of_nat i) = Ok x) ->
   init ds nc sh sf None None cbt g = init ds nc sh sf (Some ls) None cbt g) /\
  ((forall i x, nth_error ls i = Some x -> call_single cb (Z.of_nat i) = Ok x) ->
   init ds nc sh sf None (Some cb) "single" g
   = init ds nc sh sf (Some ls) None "single" g) /\
  (call_multi cb = Ok ls ->
   init ds nc sh sf None (Some cb) "multi" g
   = init ds nc sh sf (Some ls) None "multi" g).
Proof.
  intros Hlen.
  assert (Hfull : firstn (ds_len ds) ls = ls)
    by (rewrite <- Hlen; apply firstn_all).
  repeat split.
  - intros Hds. unfold init, prepare, acquire_labels.
    rewrite (collect_labels_ok _ ls) by (assumption || lia).
    now rewrite Hfull.
  - intros Hcb. unfold init, prepare, acquire_labels.
    cbn [String.eqb Ascii.eqb Bool.eqb orb py_assert bind].
    rewrite (collect_labels_ok _ ls) by (assumption || lia).
    now rewrite Hfull.
  - intros Hcb. unfold init, prepare, acquire_labels.
    cbn [String.eqb Ascii.eqb Bool.eqb orb py_assert bind]. now rewrite Hcb.
Qed.

(** Lines 70-74. In "single" mode the callback is called for the indices
    [0, 1, ...] in order: the exception it raises at the first failing index
    aborts the construction. *)
Theorem init_callback_raises (ds : dataset) (nc : Z) (sh : bool)
  (f : factor) (cb : callback) (k : nat) (e : exn) (g : G) :
  (k < ds_len ds)%nat ->
  (forall i, (i < k)%nat -> is_ok (call_single cb (Z.of_nat i)) = true) ->
  call_single cb (Z.of_nat k) = Raise e ->
  init ds nc sh (Some f) None (Some cb) "single" g = (Raise e, g).
Proof.
  intros Hk Hbelow Hraise.
  destruct (resolve_alias_some f) as (f' & Hf).
  unfold init, prepare, acquire_labels. rewrite Hf.
  cbn [String.eqb Ascii.eqb Bool.eqb orb py_assert bind].
  now rewrite (collect_labels_raise _ k e Hbelow Hraise (ds_len ds) Hk).
Qed.
End Callbacks.

Lemma init_labels_by_callback_witness :
  init ds8_labelled 2 false (Some (FInt 4)) None None "single" 42
  = init ds8_labelled 2 false (Some (FInt 4)) (Some flat8) None "single" 42.
Proof.
  destruct (init_labels_by_callback ds8_labelled 2 false (Some (FInt 4)) flat8
              cb8 "single" 42 eq_refl) as (Hds & _ & _).
  apply Hds. intros i x Hi. now apply py_getitem_nth.
Defined.

Lemma init_callback_raises_witness :
  init ds8 2 false (Some (FInt 4)) None (Some cb_fails_at_3) "single" 42
  = (Raise ValueError, 42).
Proof.
  apply (init_callback_raises ds8 2 false (FInt 4) cb_fails_at_3 3 ValueError 42).
  - cbn. lia.
  - intros i Hi. cbn [cb_fails_at_3 call_single].
    replace (Z.of_nat i =? 3) with false by (symmetry; apply Z.eqb_neq; lia).
    reflexivity.
  - reflexivity.
Defined.

(** ** The partition built from flat labels *)

Lemma concat_append_at {A : Type} (x : A) (l : list (list A)) :
  forall j, (j < length l)%nat ->
    Permutation (concat (append_at j x l)) (concat l ++ [x]).
Proof.
  induction l as [|h t IH]; intros [|j] Hj; cbn [length] in Hj; try lia;
    cbn [append_at concat].
  - rewrite <- !app_assoc. apply Permutation_app_head.
    apply Permutation_app_comm.
  - rewrite <- app_assoc. apply Permutation_app_head. apply IH. lia.
Qed.

Lemma flat_loop_permutation (ls : list pyval) :
  forall (i : nat) (classes out : list (list pyval)),
    flat_loop i ls classes = Ok out ->
    Permutation (concat out) (concat classes ++ index_range i (length ls)).
Proof.
  induction ls as [|[z|l] rest IH]; intros i classes out; cbn [flat_loop].
  - intros [= <-]. cbn. now rewrite app_nil_r.
  - destruct (py_index (length classes) z) as [j|] eqn:Hj; cbn [bind];
      [|discriminate].
    intros Hl. apply IH in Hl. rewrite Hl.
    assert (Hlt : (j < length classes)%nat).
    { unfold py_index in Hj. destruct (_ || _) eqn:Hb in Hj; [discriminate|].
      injection Hj as <-. apply orb_false_iff in Hb.
      destruct (z <? 0); lia. }
    rewrite (concat_append_at _ _ j Hlt), <- app_assoc. reflexivity.
  - discriminate.
Qed.

Lemma concat_repeat_nil {A : Type} (n : nat) : concat (repeat (@nil A) n) = [].
Proof. induction n as [|n IH]; cbn; auto. Qed.

(** Lines 82-84. When the labels are as many as the dataset items, the
    classes partition the dataset indices: read one after the other they hold
    every index of [0, len(dataset)) exactly once, and there are
    [num_classes] of them. *)
Theorem flat_labels_partition (ds : dataset) (nc : Z) (ls : list pyval)
  (classes : list (list pyval)) :
  length ls = ds_len ds ->
  resolve_labels ds nc ls = Ok classes ->
  Permutation (concat classes) (index_range 0 (ds_len ds)) /\
  length classes = Z.to_nat nc /\
  fold_right Z.add 0 (map len classes) = Z.of_nat (ds_len ds).
Proof.
  intros Hlen Hres. pose proof (resolve_labels_length _ _ _ _ Hres) as Hn.
  unfold resolve_labels in Hres. rewrite Hlen, Nat.eqb_refl in Hres.
  unfold flat_branch in Hres. apply flat_loop_permutation in Hres.
  rewrite concat_repeat_nil, Hlen in Hres. cbn [app] in Hres.
  split; [exact Hres|]. split; [exact Hn|].
  assert (Hsum : forall l : list (list pyval),
             fold_right Z.add 0 (map len l) = len (concat l)).
  { induction l as [|h t IH]; cbn [map fold_right concat]; [reflexivity|].
    rewrite len_app, IH. reflexivity. }
  rewrite Hsum. unfold len. rewrite (Permutation_length Hres).
  unfold index_range. now rewrite length_map, length_seq.
Qed.

Lemma flat_labels_partition_witness :
  Permutation (concat classes8) (index_range 0 8).
Proof.
  apply (flat_labels_partition ds8 2 flat8 classes8); reflexivity.
Defined.

Lemma class_of_valid (n : nat) (v : pyval) :
  valid_label n v <-> exists j, class_of n v = Some j.
Proof.
  unfold valid_label, class_of, py_index. split.
  - intros (z & -> & Hz).
    destruct (z <? 0) eqn:Hneg; cbv zeta.
    + replace ((z + Z.of_nat n <? 0) || (Z.of_nat n <=? z + Z.of_nat n))
        with false by (symmetry; apply orb_false_iff; lia).
      eauto.
    + replace ((z <? 0) || (Z.of_nat n <=? z))
        with false by (symmetry; apply orb_false_iff; lia).
      eauto.
  - intros (j & Hj). destruct v as [z|l]; [|discriminate].
    exists z. split; [reflexivity|].
    destruct (z <? 0) eqn:Hneg; cbv zeta in Hj;
      destruct (_ || _) eqn:Hb in Hj; try discriminate;
      apply orb_false_iff in Hb; lia.
Qed.

Lemma class_of_value (n : nat) (z : Z) (j : nat) :
  class_of n (PInt z) = Some j ->
  j = Z.to_nat (if z <? 0 then z + Z.of_nat n else z).
Proof.
  unfold class_of, py_index. cbv zeta.
  destruct (_ || _); [discriminate|]. now intros [= <-].
Qed.

Lemma flat_loop_ok_iff (ls : list pyval) :
  forall (i : nat) (classes : list (list pyval)),
    is_ok (flat_loop i ls classes) = true
    <-> Forall (valid_label (length classes)) ls.
Proof.
  induction ls as [|v rest IH]; intros i classes.
  - cbn. split; [constructor | reflexivity].
  - pose proof (class_of_valid (length classes) v) as Hv.
    destruct v as [z|l]; cbn [flat_loop].
    + unfold class_of in Hv.
      destruct (py_index (length classes) z) as [j|e]; cbn [bind].
      * rewrite IH, length_append_at. split.
        -- intros Hr. constructor; [apply Hv; eauto | exact Hr].
        -- intros Hall. now inversion Hall.
      * split; [discriminate|]. intros Hall. inversion Hall as [|? ? Hz _]; subst.
        apply Hv in Hz. destruct Hz as (j & Hj). discriminate.
    + split; [discriminate|]. intros Hall. inversion Hall as [|? ? Hz _]; subst.
      destruct Hz as (z & Hz & _). discriminate.
Qed.

Lemma py_index_error (n : nat) (z : Z) (e : exn) :
  py_index n z = Raise e -> e = IndexError.
Proof.
  unfold py_index. cbv zeta. destruct (_ || _); [|discriminate].
  now intros [= <-].
Qed.

Lemma flat_loop_raises (pre : list pyval) :
  forall (i : nat) (classes : list (list pyval)) (v : pyval) (post : list pyval),
    Forall (valid_label (length classes)) pre ->
    ~ valid_label (length classes) v ->
    flat_loop i (pre ++ v :: post) classes
    = Raise (match v with PList _ => TypeError | PInt _ => IndexError end).
Proof.
  induction pre as [|w pre IH]; intros i classes v post Hpre Hv; cbn [app].
  - destruct v as [z|l]; cbn [flat_loop]; [|reflexivity].
    destruct (py_index (length classes) z) as [j|e] eqn:Hj; cbn [bind].
    + exfalso. apply Hv. apply class_of_valid. exists j. cbn. now rewrite Hj.
    + now rewrite (py_index_error _ _ _ Hj).
  - inversion Hpre as [|? ? Hw Hrest]; subst.
    apply class_of_valid in Hw. destruct Hw as (j & Hj).
    destruct w as [z|l]; [|discriminate]. cbn [flat_loop].
    cbn [class_of] in Hj.
    destruct (py_index (length classes) z) as [j'|]; [|discriminate].
    cbn [bind]. apply IH; now rewrite length_append_at.
Qed.

(** Lines 83-84. Flat labels are accepted exactly when each is an integer in
    [-num_classes, num_classes); the first label that is not raises
    [TypeError] if it is a list and [IndexError] if it is an integer out of
    that range. *)
Theorem flat_labels_accepted (ds : dataset) (nc : Z) (ls : list pyval) :
  length ls = ds_len ds ->
  (is_ok (resolve_labels ds nc ls) = true
   <-> Forall (valid_label (Z.to_nat nc)) ls) /\
  (forall pre v post,
      ls = pre ++ v :: post ->
      Forall (valid_label (Z.to_nat nc)) pre ->
      ~ valid_label (Z.to_nat nc) v ->
      resolve_labels ds nc ls
      = Raise (match v with PList _ => TypeError | PInt _ => IndexError end)).
Proof.
  intros Hlen. unfold resolve_labels. rewrite Hlen, Nat.eqb_refl.
  unfold flat_branch. split.
  - rewrite flat_loop_ok_iff. now rewrite repeat_length.
  - intros pre v post -> Hpre Hv.
    apply flat_loop_raises; now rewrite repeat_length.
Qed.

Lemma flat_labels_accepted_witness :
  resolve_labels ds2 2 [PInt 1; PInt 2] = Raise IndexError.
Proof.
  destruct (flat_labels_accepted ds2 2 [PInt 1; PInt 2] eq_refl) as [_ Hraise].
  apply (Hraise [PInt 1] (PInt 2) []).
  - reflexivity.
  - constructor; [|constructor]. exists 1. split; [reflexivity|]. cbn. lia.
  - intros (z & Hz & Hr). injection Hz as <-. cbn in Hr. lia.
Defined.

Lemma indices_of_class_mem (n k : nat) (ls : list pyval) :
  forall (base i : nat) (label : pyval),
    nth_error ls i = Some label ->
    class_of n label = Some k ->
    In (PInt (Z.of_nat (base + i))) (indices_of_class n k base ls).
Proof.
  induction ls as [|l rest IH]; intros base [|i] label Hi Hc; cbn in Hi;
    try discriminate; cbn [indices_of_class].
  - injection Hi as ->. unfold is_class. rewrite Hc, Nat.eqb_refl.
    rewrite Nat.add_0_r. now left.
  - replace (base + S i)%nat with (S base + i)%nat by lia.
    destruct (is_class n k l); [right|]; now apply (IH (S base) i label).
Qed.

(** Lines 83-84. The dataset index [i] goes to the class its label [z]
    denotes as a Python list index: class [z] for [z >= 0], and class
    [num_classes + z], counted from the end, for a negative [z]. *)
Theorem flat_label_class (ds : dataset) (nc : Z) (ls : list pyval)
  (classes : list (list pyval)) (i : nat) (z : Z) :
  length ls = ds_len ds ->
  resolve_labels ds nc ls = Ok classes ->
  nth_error ls i = Some (PInt z) ->
  exists class_l,
    nth_error classes (Z.to_nat (if z <? 0 then nc + z else z)) = Some class_l /\
    In (PInt (Z.of_nat i)) class_l.
Proof.
  intros Hlen Hres Hi.
  unfold resolve_labels in Hres. rewrite Hlen, Nat.eqb_refl in Hres.
  assert (Hok : Forall (valid_label (Z.to_nat nc)) ls).
  { rewrite <- (repeat_length (@nil pyval) (Z.to_nat nc)).
    apply (flat_loop_ok_iff ls 0). unfold flat_branch in Hres. now rewrite Hres. }
  assert (Hv : valid_label (Z.to_nat nc) (PInt z)).
  { rewrite Forall_forall in Hok. apply Hok. eapply nth_error_In; eauto. }
  pose proof Hv as Hv'. apply class_of_valid in Hv'. destruct Hv' as (j & Hj).
  pose proof (class_of_value _ _ _ Hj) as Hjv.
  destruct Hv as (z' & [= <-] & Hz).
  apply flat_branch_spec in Hres. destruct Hres as [Hn Hnth].
  assert (Hjlt : (j < Z.to_nat nc)%nat) by (destruct (z <? 0) eqn:E; lia).
  exists (indices_of_class (Z.to_nat nc) j 0 ls).
  replace (Z.to_nat (if z <? 0 then nc + z else z)) with j
    by (destruct (z <? 0) eqn:E; lia).
  split; [now apply Hnth|].
  exact (indices_of_class_mem _ _ _ 0%nat i _ Hi Hj).
Qed.

Lemma flat_label_class_witness :
  exists class_l,
    nth_error [[PInt 1]; [PInt 0]] (Z.to_nat (2 + -1)) = Some class_l /\
    In (PInt 0) class_l.
Proof.
  apply (flat_label_class ds2 2 [PInt (-1); PInt 0] [[PInt 1]; [PInt 0]] 0 (-1));
    reflexivity.
Defined.

Section ValidIndices.
Context {G : Type} `{RandomLaws G}.

(** Lines 82-84 and 124-149. With flat labels, whatever their origin, every
    entry of the built sequence is a dataset index: an integer [i] with
    [0 <= i < len(dataset)]. *)
Theorem indices_are_dataset_indices (ds : dataset) (nc : Z) (sh : bool)
  (sf : option factor) (ls : option (list pyval)) (cb : option callback)
  (cbt : string) (g g' : G) (self : sampler) (lbls : list pyval) :
  init ds nc sh sf ls cb cbt g = (Ok self, g') ->
  acquire_labels ds ls cb cbt = Ok lbls ->
  length lbls = ds_len ds ->
  forall v, In v (indices self) ->
    exists i, v = PInt (Z.of_nat i) /\ (i < ds_len ds)%nat.
Proof.
  intros Hinit Hacq Hlen v Hv.
  pose proof (init_emissions _ _ _ _ _ _ _ _ _ _ Hinit) as (es & Hes & Hn & Hem).
  apply init_inv in Hinit. destruct Hinit as (Hprep & _).
  apply prepare_inv in Hprep.
  destruct Hprep as (f & lbls' & _ & Hacq' & Hres & _).
  rewrite Hacq in Hacq'. injection Hacq' as <-.
  unfold resolve_labels in Hres. rewrite Hlen, Nat.eqb_refl in Hres.
  apply flat_branch_spec in Hres. destruct Hres as [_ Hflat].
  rewrite Hes in Hv. apply in_concat in Hv. destruct Hv as (e & He & Hve).
  apply In_nth_error in He. destruct He as (c & Hc).
  assert (Hclt : (c < Z.to_nat nc)%nat).
  { rewrite <- Hn. apply nth_error_Some. congruence. }
  destruct (Hem c Hclt) as (class_l & e' & Hcl & He' & Hemit).
  rewrite Hc in He'. injection He' as <-.
  rewrite (Hflat c Hclt) in Hcl. injection Hcl as <-.
  apply (emission_in _ _ _ v Hemit) in Hve.
  apply indices_of_class_in in Hve. destruct Hve as (i & label & -> & Hi & _).
  exists i. split; [reflexivity|]. rewrite <- Hlen.
  apply nth_error_Some. congruence.
Qed.
End ValidIndices.

Lemma indices_are_dataset_indices_witness :
  exists i, PInt 5 = PInt (Z.of_nat i) /\ (i < 8)%nat.
Proof.
  eapply (indices_are_dataset_indices ds8 2 false (Some (FFloat float0))
            (Some flat8) None "single" 42 _ _ flat8).
  - vm_compute. reflexivity.
  - reflexivity.
  - reflexivity.
  - cbn. auto.
Defined.

(** ** What the per-class branch accepts *)

Lemma py_getitem_inv {A : Type} (l : list A) (i : nat) (x : A) :
  py_getitem l (Z.of_nat i) = Ok x -> nth_error l i = Some x.
Proof.
  unfold py_getitem, py_index.
  destruct (Z.ltb_spec (Z.of_nat i) 0) as [Hneg|_]; [lia|].
  cbv beta iota zeta. destruct (_ || _); cbn [bind]; [discriminate|].
  rewrite Nat2Z.id. destruct (nth_error l i); [|discriminate].
  now intros [= ->].
Qed.

Lemma nth_error_set_nth {A : Type} (l : list A) :
  forall (i k : nat) (x : A),
    (i < length l)%nat ->
    nth_error (set_nth i x l) k
    = if Nat.eqb i k then Some x else nth_error l k.
Proof.
  induction l as [|h t IH]; intros [|i] [|k] x Hi; cbn [length] in Hi;
    try lia; cbn; try reflexivity.
  apply IH. lia.
Qed.

Lemma per_class_loop_spec (ls : list pyval) :
  forall (i : nat) (classes out : list (list pyval)) (sum sum' : Z),
    per_class_loop i ls classes sum = Ok (out, sum') ->
    (forall k, (k < i)%nat -> nth_error out k = nth_error classes k) /\
    (forall j, (j < length ls)%nat ->
       exists cl c,
         nth_error ls j = Some (PList cl) /\
         nth_error cl (i + j) = Some (PList c) /\
         nth_error out (i + j) = Some c) /\
    sum' = sum + len (concat (firstn (length ls) (skipn i out))).
Proof.
  induction ls as [|[z|cl] rest IH]; intros i classes out sum sum';
    cbn [per_class_loop].
  - intros [= <- <-]. repeat split; try reflexivity.
    + intros j Hj. cbn in Hj. lia.
    + cbn. unfold len. cbn. lia.
  - discriminate.
  - destruct (py_getitem cl (Z.of_nat i)) as [v|] eqn:Hv; cbn [bind];
      [|discriminate].
    destruct (py_index (length classes) (Z.of_nat i)) as [i'|] eqn:Hi;
      cbn [bind]; [|discriminate].
    destruct v as [z|c]; [discriminate|].
    intros Hl. apply py_getitem_inv in Hv.
    assert (Hilt : (i < length classes)%nat).
    { unfold py_index in Hi.
      destruct (Z.ltb_spec (Z.of_nat i) 0) as [Hneg|_]; [lia|].
      cbv beta iota zeta in Hi. destruct (_ || _) eqn:Hb in Hi; [discriminate|].
      apply orb_false_iff in Hb. lia. }
    destruct (IH _ _ _ _ _ Hl) as (Hbelow & Hat & Hsum).
    assert (Houti : nth_error out i = Some c).
    { rewrite (Hbelow i (Nat.lt_succ_diag_r i)), nth_error_set_nth by exact Hilt.
      now rewrite Nat.eqb_refl. }
    split; [|split].
    + intros k Hk. rewrite (Hbelow k ltac:(lia)), nth_error_set_nth by exact Hilt.
      replace (Nat.eqb i k) with false by (symmetry; apply Nat.eqb_neq; lia).
      reflexivity.
    + intros [|j] Hj.
      * exists cl, c. rewrite Nat.add_0_r. cbn. auto.
      * cbn [length] in Hj. destruct (Hat j ltac:(lia)) as (cl' & c' & H1 & H2 & H3).
        exists cl', c'. rewrite Nat.add_succ_r. cbn. auto.
    + rewrite Hsum. cbn [length]. rewrite (skipn_nth_error _ _ _ Houti).
      cbn [firstn concat]. rewrite len_app. lia.
Qed.

(** Lines 86-92. Labels whose number differs from the dataset length are
    accepted only if there are [num_classes] of them and the [i]-th entry is
    a list whose own [i]-th element is a list: that element, [labels[i][i]],
    becomes class [i], and the class sizes must add up to the dataset
    length. *)
Theorem per_class_branch_takes_diagonal (ds : dataset) (nc : Z)
  (ls : list pyval) (classes : list (list pyval)) :
  length ls <> ds_len ds ->
  resolve_labels ds nc ls = Ok classes ->
  len ls = nc /\
  (forall i, (i < length ls)%nat ->
     exists cl c,
       nth_error ls i = Some (PList cl) /\
       nth_error cl i = Some (PList c) /\
       nth_error classes i = Some c) /\
  len (concat classes) = Z.of_nat (ds_len ds).
Proof.
  intros Hne Hres. pose proof (resolve_labels_length _ _ _ _ Hres) as Hn.
  unfold resolve_labels in Hres.
  replace (Nat.eqb (length ls) (ds_len ds)) with false in Hres
    by (symmetry; now apply Nat.eqb_neq).
  unfold per_class_branch, py_assert in Hres.
  destruct (len ls =? nc) eqn:Hlen; cbn [bind] in Hres; [|discriminate].
  apply Z.eqb_eq in Hlen.
  destruct (per_class_loop 0 ls _ 0) as [[out sum]|] eqn:Hloop;
    cbn [bind fst snd] in Hres; [|discriminate].
  destruct (sum =? Z.of_nat (ds_len ds)) eqn:Hsum; cbn [bind] in Hres;
    [|discriminate].
  injection Hres as <-. apply Z.eqb_eq in Hsum.
  destruct (per_class_loop_spec _ _ _ _ _ _ Hloop) as (_ & Hat & Hs).
  split; [exact Hlen|]. split; [exact Hat|].
  rewrite <- Hsum, Hs. cbn [skipn]. rewrite firstn_all2; [lia|].
  unfold len in Hlen. lia.
Qed.

Lemma per_class_branch_takes_diagonal_witness :
  len (concat classes8) = Z.of_nat (ds_len ds8).
Proof.
  apply (per_class_branch_takes_diagonal ds8 2 diagonal8 classes8).
  - cbn. lia.
  - reflexivity.
Defined.

(** ** Sampling factors that are rejected *)

Lemma above_one_no_range (x : spec_float) :
  SFltb float1 x = true ->
  interpolation_range x = false /\
  undersample_range x = false /\
  oversample_range x = false.
Proof.
  unfold SFltb, float1.
  destruct x as [s|s| |s m e]; cbn [SFcompare]; try discriminate.
  - destruct s; [discriminate|]. intros _. repeat split.
  - destruct s; [discriminate|]. intros Hx.
    split; [|split; reflexivity].
    unfold interpolation_range, SFleb, float0, float1. cbn [SFcompare andb].
    rewrite compare_cont_Z in *.
    destruct (Z.compare_spec (-52) e) as [Heq|Hlt|Hgt]; try discriminate Hx.
    + subst e. rewrite Z.compare_refl.
      destruct (Z.compare_spec 4503599627370496 (Zpos m)) as [H1|H1|H1];
        try discriminate Hx.
      destruct (Z.compare_spec (Zpos m) 4503599627370496) as [H2|H2|H2];
        try reflexivity; lia.
    + destruct (Z.compare_spec e (-52)) as [H2|H2|H2]; try reflexivity; lia.
Qed.

Section RejectedFactors.
Context {G : Type} `{RandomLaws G}.

(** Lines 98-111. With a resolved, non-empty list of classes, a float factor
    equal to [-1.0], greater than [1.0] or NaN raises [NotImplementedError],
    and a string other than the two aliases raises [TypeError] at the first
    comparison with a float. *)
Theorem unsupported_factor_raises (ds : dataset) (nc : Z) (sh : bool)
  (ls : option (list pyval)) (cb : option callback) (cbt : string) (g : G)
  (classes : list (list pyval)) :
  resolved_partition ds nc ls cb cbt = Ok classes ->
  classes <> [] ->
  (forall x,
      x = float_m1 \/ SFltb float1 x = true \/ x = S754_nan ->
      init ds nc sh (Some (FFloat x)) ls cb cbt g
      = (Raise NotImplementedError, g)) /\
  (forall s,
      s <> "oversampling"%string -> s <> "undersampling"%string ->
      init ds nc sh (Some (FStr s)) ls cb cbt g = (Raise TypeError, g)).
Proof.
  intros Hpart Hne.
  assert (Hsizes : exists mn mx, py_min (map len classes) = Ok mn /\
                                 py_max (map len classes) = Ok mx).
  { destruct classes as [|c t]; [congruence|]. cbn. eauto. }
  destruct Hsizes as (mn & mx & Hmn & Hmx). split.
  - intros x Hx. unfold init.
    rewrite (prepare_intro ds nc (Some (FFloat x)) ls cb cbt (FFloat x) classes
               eq_refl Hpart).
    unfold resolve_class_size. rewrite Hmn, Hmx.
    cbn [bind compute_class_size].
    destruct Hx as [->|[Hx| ->]]; try reflexivity.
    destruct (above_one_no_range x Hx) as (-> & -> & ->). reflexivity.
  - intros s Ho Hu. unfold init.
    apply String.eqb_neq in Ho, Hu.
    rewrite (prepare_intro ds nc (Some (FStr s)) ls cb cbt (FStr s) classes);
      [|cbn [resolve_alias]; now rewrite Ho, Hu | exact Hpart].
    unfold resolve_class_size. rewrite Hmn, Hmx. reflexivity.
Qed.

(** Lines 113-120 and 135-136. A whole-number factor below 2 never
    constructs a sampler: 1 raises [NotImplementedError]; 0 and negative
    values fail the range assertion when no class is empty, and otherwise
    the division by the size of the empty class. *)
Theorem int_factor_below_two_rejected (ds : dataset) (nc : Z) (sh : bool)
  (n : Z) (ls : option (list pyval)) (cb : option callback) (cbt : string)
  (g : G) :
  n < 2 ->
  (exists e g',
      init ds nc sh (Some (FInt n)) ls cb cbt g = (Raise e, g')) /\
  (forall classes,
      resolved_partition ds nc ls cb cbt = Ok classes -> classes <> [] ->
      (n = 1 ->
       init ds nc sh (Some (FInt n)) ls cb cbt g
       = (Raise NotImplementedError, g)) /\
      (n <= 0 -> ~ In [] classes ->
       init ds nc sh (Some (FInt n)) ls cb cbt g
       = (Raise AssertionError, g))).
Proof.
  intros Hn. split.
  - destruct (prepare ds nc (Some (FInt n)) ls cb cbt) as [[classes cs]|e] eqn:Hp.
    2:{ unfold init. rewrite Hp. eauto. }
    pose proof (prepare_inv _ _ _ _ _ _ _ _ Hp)
      as (f & lbls & Hf & _ & _ & Hcs & Hchk).
    injection Hf as <-.
    apply check_class_size_inv in Hchk. destruct Hchk as (mn & mx & Hmn & Hmx & Hr).
    unfold resolve_class_size in Hcs. rewrite Hmn, Hmx in Hcs.
    cbn [bind compute_class_size] in Hcs.
    destruct (n =? 1) eqn:H1; [discriminate|]. injection Hcs as <-.
    pose proof (py_min_len_nonneg _ _ Hmn) as Hmn0.
    assert (Hempty : In [] classes).
    { apply py_min_spec in Hmn. destruct Hmn as [Hin _].
      apply in_map_iff in Hin. destruct Hin as (c & Hc & Hin).
      assert (c = []) as ->; [|exact Hin].
      destruct c; [reflexivity|]. unfold len in Hc. cbn in Hc. lia. }
    destruct (init_empty_class ds nc sh _ ls cb cbt g classes n Hp Hempty)
      as (g' & Hi).
    eauto.
  - intros classes Hpart Hne.
    assert (Hsizes : exists mn mx, py_min (map len classes) = Ok mn /\
                                   py_max (map len classes) = Ok mx).
    { destruct classes as [|c t]; [congruence|]. cbn. eauto. }
    destruct Hsizes as (mn & mx & Hmn & Hmx).
    pose proof (prepare_intro ds nc (Some (FInt n)) ls cb cbt (FInt n) classes
                  eq_refl Hpart) as Hp.
    unfold resolve_class_size, check_class_size in Hp. rewrite Hmn, Hmx in Hp.
    cbn [bind compute_class_size] in Hp. split.
    + intros ->. unfold init. now rewrite Hp.
    + intros Hle0 Hnoempty.
      pose proof (py_min_len_pos _ _ Hmn Hnoempty) as Hpos.
      replace (n =? 1) with false in Hp by (symmetry; lia).
      cbn [bind] in Hp.
      replace ((n <=? mx) && (mn <=? n)) with false in Hp
        by (symmetry; apply andb_false_iff; right; lia).
      unfold init. now rewrite Hp.
Qed.
End RejectedFactors.

Lemma unsupported_factor_raises_witness :
  init ds8 2 false (Some (FFloat float_1_5)) (Some flat8) None "single" 42
  = (Raise NotImplementedError, 42).
Proof.
  destruct (unsupported_factor_raises ds8 2 false (Some flat8) None "single" 42
              classes8) as [Hfloat _].
  - reflexivity.
  - discriminate.
  - apply Hfloat. right. left. reflexivity.
Defined.

Lemma int_factor_below_two_rejected_witness :
  init ds8 2 false (Some (FInt 0)) (Some flat8) None "single" 42
  = (Raise AssertionError, 42).
Proof.
  destruct (int_factor_below_two_rejected ds8 2 false 0 (Some flat8) None
              "single" 42) as [_ Hspec]; [lia|].
  destruct (Hspec classes8) as [_ Hneg]; [reflexivity | discriminate |].
  apply Hneg; [lia|]. simpl. intuition discriminate.
Defined.

(** ** Interpolation always constructs *)

Lemma interpolation_resolves {A : Type} (classes : list (list A))
  (x : spec_float) (mn mx : Z) :
  valid_binary prec emax x = true ->
  interpolation_range x = true ->
  py_min (map len classes) = Ok mn ->
  py_max (map len classes) = Ok mx ->
  mx < 2 ^ 53 ->
  exists k, resolve_class_size classes (FFloat x) = Ok k /\ mn <= k <= mx.
Proof.
  intros Hv Hr Hmn Hmx Hlt.
  pose proof (py_min_le_max _ _ _ Hmn Hmx) as Hle.
  pose proof (py_min_len_nonneg _ _ Hmn) as Hmn0.
  destruct (interpolate_core x (mx - mn) Hv Hr ltac:(lia))
    as (y & k & Hy & Hk & _ & Hk3).
  exists (mn + k). unfold resolve_class_size. rewrite Hmn, Hmx.
  cbn [bind compute_class_size]. rewrite Hr, Z.abs_eq by lia.
  unfold py_mul_float_int. rewrite Hy. cbn [bind]. rewrite Hk. cbn [bind].
  split; [reflexivity | lia].
Qed.

Section InterpolationConstructs.
Context {G : Type} `{RandomLaws G}.

(** Lines 98-102, 120 and 124-149. For a float factor in [0.0, 1.0] and a
    partition without an empty class, the range assertion never fails and
    the construction succeeds, with a class size between the smallest and
    the largest class. Class sizes are taken below [2^53]. *)
Theorem interpolation_constructs (ds : dataset) (nc : Z) (sh : bool)
  (x : spec_float) (ls : option (list pyval)) (cb : option callback)
  (cbt : string) (g : G) (classes : list (list pyval)) (mn mx : Z) :
  valid_binary prec emax x = true ->
  interpolation_range x = true ->
  resolved_partition ds nc ls cb cbt = Ok classes ->
  ~ In [] classes ->
  py_min (map len classes) = Ok mn ->
  py_max (map len classes) = Ok mx ->
  mx < 2 ^ 53 ->
  exists self g',
    init ds nc sh (Some (FFloat x)) ls cb cbt g = (Ok self, g') /\
    labels self = classes /\
    mn <= class_size self <= mx.
Proof.
  intros Hv Hr Hpart Hne Hmn Hmx Hlt.
  destruct (interpolation_resolves classes x mn mx Hv Hr Hmn Hmx Hlt)
    as (k & Hk & Hrange).
  assert (Hp : prepare ds nc (Some (FFloat x)) ls cb cbt = Ok (classes, k)).
  { rewrite (prepare_intro ds nc (Some (FFloat x)) ls cb cbt (FFloat x) classes
               eq_refl Hpart).
    rewrite Hk. cbn [bind]. unfold check_class_size. rewrite Hmn, Hmx.
    cbn [bind].
    replace ((k <=? mx) && (mn <=? k)) with true
      by (symmetry; apply andb_true_iff; split; lia).
    reflexivity. }
  destruct (init_ok ds nc sh _ ls cb cbt g classes k Hp Hne)
    as (self & g' & Hi & Hl & Hcs).
  exists self, g'. rewrite Hcs. auto.
Qed.
End InterpolationConstructs.

Lemma interpolation_constructs_witness :
  exists self g',
    init ds8 2 false (Some (FFloat float_half)) (Some flat8) None "single" 42
    = (Ok self, g') /\
    labels self = classes8 /\
    3 <= class_size self <= 5.
Proof.
  apply (interpolation_constructs ds8 2 false float_half (Some flat8) None
           "single" 42 classes8 3 5); try reflexivity.
  simpl. intuition discriminate.
Defined.

(** ** Emissions: undersampling, exact multiples, coverage *)

Section EmissionShapes.
Context {G : Type} `{RandomLaws G} {A : Type}.

(** Lines 139-144. A class larger than the class size is undersampled: its
    emission holds no repetition block, only [class_size] entries taken from
    distinct positions of the class, so it has no duplicates when the class
    has none. *)
Theorem undersampled_emission (class_size : Z) (class_l e : list A)
  (g g' : G) :
  class_emission class_size class_l g = (Ok e, g') ->
  class_size < len class_l ->
  len e = class_size /\
  (exists rest, Permutation (e ++ rest) class_l) /\
  (forall x, In x e -> In x class_l) /\
  (NoDup class_l -> NoDup e).
Proof.
  intros He Hlt. apply class_emission_inv in He.
  pose proof (emission_len _ _ _ He) as Hlen.
  destruct He as (reps & sample & s & Hrs & _ & Hsel & ->).
  apply reps_and_sample_inv in Hrs; [|apply len_nonneg].
  destruct Hrs as [(Hn & _)|(_ & -> & ->)]; [lia|].
  change (py_list_mul class_l 0) with (@nil A) in *. cbn [app] in *.
  split; [exact Hlen|]. split; [apply Hsel|]. split.
  - intros x. now apply (selection_in _ _ _ x Hsel).
  - now apply (selection_NoDup _ _ _ Hsel).
Qed.

(** Lines 135-144. When the class size is a multiple of the size of a
    non-empty class, the sample is empty and the emission is the class list
    repeated [class_size // n] times in its original order, whatever the
    random source does. *)
Theorem exact_multiple_emission (class_size : Z) (class_l : list A) (g : G) :
  class_l <> [] ->
  0 <= class_size ->
  class_size mod len class_l = 0 ->
  exists g',
    class_emission class_size class_l g
    = (Ok (py_list_mul class_l (class_size / len class_l)), g').
Proof.
  intros Hne Hcs Hmod.
  destruct (class_emission_ok class_size class_l g Hcs Hne) as (e & g' & He).
  exists g'. rewrite He. do 2 f_equal.
  apply class_emission_inv in He.
  destruct He as (reps & sample & s & Hrs & _ & Hsel & ->).
  assert (Hn : 0 < len class_l).
  { destruct class_l; [congruence|]. unfold len. cbn. lia. }
  apply reps_and_sample_inv in Hrs; [|lia].
  destruct Hrs as [(_ & -> & ->)|(Hlt & -> & ->)].
  - rewrite Hmod in Hsel. apply selection_none in Hsel. subst s.
    now rewrite app_nil_r.
  - assert (class_size = 0) as ->.
    { rewrite Z.mod_small in Hmod by lia. exact Hmod. }
    apply selection_none in Hsel. subst s. rewrite Z.div_0_l by lia.
    reflexivity.
Qed.
End EmissionShapes.

Lemma undersampled_emission_witness :
  len [PInt 5; PInt 7; PInt 6] = 3.
Proof.
  apply (undersampled_emission (G := Z) 3 (map PInt [3; 4; 5; 6; 7])
           [PInt 5; PInt 7; PInt 6] 42 1000676753).
  - vm_compute. reflexivity.
  - vm_compute. reflexivity.
Defined.

Lemma exact_multiple_emission_witness :
  exists g',
    class_emission 6 [1; 2; 3] (42 : Z)
    = (Ok (py_list_mul [1; 2; 3] (6 / len [1; 2; 3])), g').
Proof.
  apply (exact_multiple_emission (G := Z) 6 [1; 2; 3] 42).
  - discriminate.
  - lia.
  - reflexivity.
Defined.

Lemma in_py_list_mul_intro {A : Type} (l : list A) (reps : Z) (x : A) :
  1 <= reps -> In x l -> In x (py_list_mul l reps).
Proof.
  intros Hr Hx. unfold py_list_mul.
  destruct (Z.to_nat reps) as [|n] eqn:Hn; [lia|].
  cbn [repeat concat]. apply in_or_app. now left.
Qed.

Lemma emission_covers {A : Type} (class_size : Z) (class_l e : list A) (x : A) :
  emission_of class_size class_l e ->
  len class_l <= class_size ->
  In x class_l -> In x e.
Proof.
  intros (reps & sample & s & Hrs & _ & _ & ->) Hle Hx.
  assert (Hn : 0 < len class_l).
  { destruct class_l; [destruct Hx|]. unfold len. cbn. lia. }
  apply reps_and_sample_inv in Hrs; [|lia].
  destruct Hrs as [(_ & -> & _)|(Hlt & _)]; [|lia].
  apply in_or_app. left. apply in_py_list_mul_intro; [|exact Hx].
  apply Z.div_le_lower_bound; lia.
Qed.

Lemma float1_class_size {A : Type} (classes : list (list A)) (mn mx : Z) :
  py_min (map len classes) = Ok mn ->
  py_max (map len classes) = Ok mx ->
  mx < 2 ^ 53 ->
  resolve_class_size classes (FFloat float1) = Ok mx.
Proof.
  intros Hmn Hmx Hlt.
  pose proof (py_min_le_max _ _ _ Hmn Hmx) as Hle.
  pose proof (py_min_len_nonneg _ _ Hmn) as Hmn0.
  unfold resolve_class_size. rewrite Hmn, Hmx. cbn [bind compute_class_size].
  change (interpolation_range float1) with true. cbv iota.
  rewrite Z.abs_eq by lia. unfold py_mul_float_int.
  destruct (mul_one_exact (mx - mn) ltac:(lia)) as (y & -> & Hk).
  cbn [bind]. rewrite Hk. cbn [bind]. f_equal. lia.
Qed.

Lemma len_le_concat {A : Type} (l : list (list A)) (c : list A) :
  In c l -> len c <= len (concat l).
Proof.
  induction l as [|h t IH]; intros Hin; [destruct Hin|].
  cbn [concat]. rewrite len_app. pose proof (len_nonneg h).
  pose proof (len_nonneg (concat t)).
  destruct Hin as [->|Hin]; [lia|]. specialize (IH Hin). lia.
Qed.

Section Coverage.
Context {G : Type} `{RandomLaws G}.

Lemma oversampled_classes_covered (ds : dataset) (nc : Z) (sh : bool)
  (sf : option factor) (ls : option (list pyval)) (cb : option callback)
  (cbt : string) (g g' : G) (self : sampler) :
  init ds nc sh sf ls cb cbt g = (Ok self, g') ->
  forall class_l x,
    In class_l (labels self) ->
    len class_l <= class_size self ->
    In x class_l -> In x (indices self).
Proof.
  intros Hinit class_l x Hcl Hle Hx.
  pose proof (init_emissions _ _ _ _ _ _ _ _ _ _ Hinit) as (es & Hes & Hn & Hem).
  apply init_inv in Hinit. destruct Hinit as (Hprep & _).
  apply prepare_facts in Hprep. destruct Hprep as (Hlen & _).
  apply In_nth_error in Hcl. destruct Hcl as (c & Hc).
  assert (Hclt : (c < Z.to_nat nc)%nat).
  { rewrite <- Hlen. apply nth_error_Some. congruence. }
  destruct (Hem c Hclt) as (class_l' & e & Hcl' & He & Hemit).
  rewrite Hc in Hcl'. injection Hcl' as <-.
  rewrite Hes. apply in_concat. exists e. split.
  - eapply nth_error_In; eauto.
  - now apply (emission_covers _ _ _ x Hemit).
Qed.

(** Lines 46-47, 100-102 and 135-144. With the factor [1.0] or its alias
    "oversampling" and flat labels, every class is repeated in full at least
    once, so every dataset index occurs in the built sequence. The dataset
    length is taken below [2^53]. *)
Theorem oversampling_keeps_every_index (ds : dataset) (nc : Z) (sh : bool)
  (sf : option factor) (ls : option (list pyval)) (cb : option callback)
  (cbt : string) (g g' : G) (self : sampler) (lbls : list pyval) :
  sf = Some (FFloat float1) \/ sf = Some (FStr "oversampling") ->
  init ds nc sh sf ls cb cbt g = (Ok self, g') ->
  acquire_labels ds ls cb cbt = Ok lbls ->
  length lbls = ds_len ds ->
  Z.of_nat (ds_len ds) < 2 ^ 53 ->
  forall i, (i < ds_len ds)%nat -> In (PInt (Z.of_nat i)) (indices self).
Proof.
  intros Hsf Hinit Hacq Hlen Hsmall i Hi.
  pose proof Hinit as Hinit'. apply init_inv in Hinit'.
  destruct Hinit' as (Hprep & _). apply prepare_inv in Hprep.
  destruct Hprep as (f & lbls' & Hf & Hacq' & Hres & Hcs & Hchk).
  rewrite Hacq in Hacq'. injection Hacq' as <-.
  assert (f = FFloat float1) as ->.
  { destruct Hsf as [-> | ->]; cbn in Hf; congruence. }
  apply check_class_size_inv in Hchk. destruct Hchk as (mn & mx & Hmn & Hmx & _).
  pose proof Hres as Hperm. unfold resolve_labels in Hperm.
  rewrite Hlen, Nat.eqb_refl in Hperm. unfold flat_branch in Hperm.
  apply flat_loop_permutation in Hperm.
  rewrite concat_repeat_nil, Hlen in Hperm. cbn [app] in Hperm.
  assert (Hmxlt : mx < 2 ^ 53).
  { pose proof (proj1 (py_max_spec _ _ Hmx)) as Hin.
    apply in_map_iff in Hin. destruct Hin as (c & <- & Hc).
    pose proof (len_le_concat _ _ Hc) as Hle.
    unfold len at 2 in Hle. rewrite (Permutation_length Hperm) in Hle.
    unfold index_range in Hle. rewrite length_map, length_seq in Hle. lia. }
  rewrite (float1_class_size _ _ _ Hmn Hmx Hmxlt) in Hcs. injection Hcs as Hcs.
  assert (Hin : In (PInt (Z.of_nat i)) (concat (labels self))).
  { apply (Permutation_in _ (Permutation_sym Hperm)).
    unfold index_range. apply in_map_iff. exists i. split; [reflexivity|].
    apply in_seq. lia. }
  apply in_concat in Hin. destruct Hin as (class_l & Hcl & Hx).
  apply (oversampled_classes_covered _ _ _ _ _ _ _ _ _ _ Hinit class_l);
    try assumption.
  rewrite <- Hcs. apply (proj2 (py_max_spec _ _ Hmx)).
  apply in_map_iff. now exists class_l.
Qed.

(** Lines 135-144. When every class already has [class_size] indices, each
    class is emitted once, unchanged: the built sequence is the classes one
    after the other, with no randomness. *)
Theorem balanced_classes_pass_through (ds : dataset) (nc : Z) (sh : bool)
  (sf : option factor) (ls : option (list pyval)) (cb : option callback)
  (cbt : string) (g g' : G) (self : sampler) :
  init ds nc sh sf ls cb cbt g = (Ok self, g') ->
  (forall class_l, In class_l (labels self) -> len class_l = class_size self) ->
  indices self = concat (labels self).
Proof.
  intros Hinit Hbal.
  pose proof (init_emissions _ _ _ _ _ _ _ _ _ _ Hinit) as (es & Hes & Hn & Hem).
  apply init_inv in Hinit. destruct Hinit as (Hprep & _).
  apply prepare_facts in Hprep. destruct Hprep as (Hlen & _).
  rewrite Hes. f_equal. apply nth_error_ext. intros c.
  destruct (Nat.lt_ge_cases c (Z.to_nat nc)) as [Hc|Hc].
  - destruct (Hem c Hc) as (class_l & e & Hcl & He & Hemit).
    rewrite Hcl, He. f_equal.
    assert (Hsize : len class_l = class_size self).
    { apply Hbal. eapply nth_error_In; eauto. }
    destruct Hemit as (reps & sample & s & Hrs & _ & Hsel & ->).
    apply reps_and_sample_inv in Hrs; [|apply len_nonneg].
    destruct Hrs as [(Hpos & -> & ->)|(Hlt & _)]; [|lia].
    rewrite <- Hsize in Hsel |- *.
    rewrite Z.mod_same in Hsel by lia. apply selection_none in Hsel. subst s.
    rewrite Z.div_same by lia.
    replace (py_list_mul class_l 1) with (class_l ++ []) by reflexivity.
    now rewrite !app_nil_r.
  - rewrite (proj2 (nth_error_None es c)) by lia.
    now rewrite (proj2 (nth_error_None (labels self) c)) by lia.
Qed.
End Coverage.

Lemma oversampling_keeps_every_index_witness :
  exists self g',
    init ds8 2 false (Some (FStr "oversampling")) (Some flat8) None "single" 7
    = (Ok self, g') /\
    In (PInt 4) (indices self).
Proof.
  eexists _, _. split; [vm_compute; reflexivity|].
  eapply (oversampling_keeps_every_index ds8 2 false
            (Some (FStr "oversampling")) (Some flat8) None "single" 7 _ _ flat8)
    with (i := 4%nat).
  - now right.
  - vm_compute. reflexivity.
  - reflexivity.
  - reflexivity.
  - reflexivity.
  - cbn. lia.
Defined.

Lemma balanced_classes_pass_through_witness :
  exists self g',
    init ds2 2 false (Some (FFloat float_half)) (Some [PInt 1; PInt 0]) None
      "single" 42 = (Ok self, g') /\
    indices self = concat (labels self).
Proof.
  eexists _, _. split; [vm_compute; reflexivity|].
  eapply (balanced_classes_pass_through ds2 2 false (Some (FFloat float_half))
            (Some [PInt 1; PInt 0]) None "single" 42).
  - vm_compute. reflexivity.
  - intros class_l [<-|[<-|[]]]; reflexivity.
Defined.

(** ** Iteration passes, with or without shuffling *)

Lemma filter_length_permutation {A : Type} (f : A -> bool) (l l' : list A) :
  Permutation l l' -> length (filter f l) = length (filter f l').
Proof.
  induction 1 as [|x l l' _ IH|x y l|l l' l'' _ IH1 _ IH2]; cbn [filter].
  - reflexivity.
  - destruct (f x); cbn [length]; now rewrite IH.
  - destruct (f x), (f y); reflexivity.
  - now rewrite IH1.
Qed.

Section Passes.
Context {G : Type} `{RandomLaws G}.

Lemma pass_spec (self : sampler) (g : G) :
  exists l self' g',
    pass self g = (Some l, self', g') /\
    Permutation (indices self) l /\
    indices self' = l /\
    num_classes self' = num_classes self /\
    class_size self' = class_size self /\
    labels self' = labels self /\
    shuffle self' = shuffle self.
Proof.
  unfold pass, iter. destruct (shuffle self) eqn:Hsh.
  - pose proof (rand_shuffle_permutation _ (indices self) g) as Hperm.
    destruct (rand_shuffle (indices self) g) as [l g'].
    cbn [fst] in Hperm. cbn [indices]. rewrite drain_skipn by (cbn; lia).
    cbn [indices skipn]. eexists _, _, _. split; [reflexivity|].
    cbn. repeat split; auto.
  - rewrite drain_skipn by lia. cbn [skipn].
    eexists _, _, _. split; [reflexivity|]. repeat split; auto.
Qed.

Lemma run_passes_spec (n : nat) :
  forall (self : sampler) (g : G),
    Permutation (indices self) (indices (fst (run_passes n self g))) /\
    num_classes (fst (run_passes n self g)) = num_classes self /\
    class_size (fst (run_passes n self g)) = class_size self.
Proof.
  induction n as [|n IH]; intros self g; cbn [run_passes].
  - cbn. auto.
  - destruct (pass_spec self g) as (l & self' & g' & -> & Hperm & Hl & Hnc & Hcs & _).
    destruct (IH self' g') as (Hp & Hn' & Hc').
    rewrite Hn', Hc', Hnc, Hcs. split; [|auto].
    rewrite Hperm, <- Hl. exact Hp.
Qed.

(** Lines 151-159. Every iteration pass over a constructed sampler, the
    first or a later one, with or without shuffling, yields exactly
    [__len__() = class_size * num_classes] items, and they are a
    rearrangement of the sequence built at construction. *)
Theorem every_pass_rearranges (ds : dataset) (nc : Z) (sh : bool)
  (sf : option factor) (ls : option (list pyval)) (cb : option callback)
  (cbt : string) (g0 g0' : G) (self : sampler) :
  init ds nc sh sf ls cb cbt g0 = (Ok self, g0') ->
  forall (n : nat) (g : G),
    exists l self' g',
      pass (fst (run_passes n self g)) (snd (run_passes n self g))
      = (Some l, self', g') /\
      Permutation (indices self) l /\
      len l = sampler_len self /\
      sampler_len self' = sampler_len self.
Proof.
  intros Hinit n g. apply init_inv in Hinit.
  destruct Hinit as (_ & Hbuild & Hnc & _).
  apply build_indices_inv in Hbuild. destruct Hbuild as (Hlen & _).
  destruct (run_passes_spec n self g) as (Hp & Hn' & Hc').
  destruct (pass_spec (fst (run_passes n self g)) (snd (run_passes n self g)))
    as (l & self' & g' & Hpass & Hperm & _ & Hnc' & Hcs' & _).
  exists l, self', g'. split; [exact Hpass|].
  assert (Hpl : Permutation (indices self) l) by (now rewrite Hp).
  split; [exact Hpl|]. unfold sampler_len.
  rewrite Hnc', Hcs', Hn', Hc'. split; [|reflexivity].
  unfold len. rewrite <- (Permutation_length Hpl). fold (len (indices self)).
  rewrite Hlen. now rewrite Hnc.
Qed.

(** Lines 82-84 and 151-159. With flat labels, every pass, shuffled or not,
    yields exactly [class_size] items of each class, the class of an item
    being read from its label. *)
Theorem every_pass_is_balanced (ds : dataset) (nc : Z) (sh : bool)
  (sf : option factor) (ls : list pyval) (cbt : string) (g0 g0' : G)
  (self : sampler) :
  length ls = ds_len ds ->
  init ds nc sh sf (Some ls) None cbt g0 = (Ok self, g0') ->
  forall (n : nat) (g : G) (c : nat),
    (c < Z.to_nat nc)%nat ->
    exists l,
      fst (fst (pass (fst (run_passes n self g)) (snd (run_passes n self g))))
      = Some l /\
      len (filter (in_class (Z.to_nat nc) ls c) l) = class_size self.
Proof.
  intros Hlen Hinit n g c Hc.
  pose proof (flat_count_per_class ds nc sh sf ls cbt g0 g0' self Hlen Hinit c Hc)
    as Hcount.
  destruct (run_passes_spec n self g) as (Hp & _).
  destruct (pass_spec (fst (run_passes n self g)) (snd (run_passes n self g)))
    as (l & self' & g' & Hpass & Hperm & _).
  exists l. rewrite Hpass. split; [reflexivity|].
  rewrite <- Hcount. unfold len. f_equal.
  apply filter_length_permutation. symmetry. now rewrite Hp.
Qed.

(** Lines 94-96, 120, 135-136 and 147. A constructed sampler has at least
    one class and no empty class; its class size lies between the smallest
    and the largest class size, so it is at least 1, and [__len__()] is the
    length of the built sequence and at least [num_classes]. *)
Theorem constructed_sampler_invariants (ds : dataset) (nc : Z) (sh : bool)
  (sf : option factor) (ls : option (list pyval)) (cb : option callback)
  (cbt : string) (g g' : G) (self : sampler) :
  init ds nc sh sf ls cb cbt g = (Ok self, g') ->
  num_classes self = nc /\ 0 < nc /\
  length (labels self) = Z.to_nat nc /\
  ~ In [] (labels self) /\
  (exists mn mx,
      py_min (map len (labels self)) = Ok mn /\
      py_max (map len (labels self)) = Ok mx /\
      1 <= mn <= class_size self /\ class_size self <= mx) /\
  len (indices self) = sampler_len self /\
  nc <= sampler_len self.
Proof.
  intros Hinit. pose proof Hinit as Hinit'. apply init_inv in Hinit'.
  destruct Hinit' as (Hprep & Hbuild & Hnc & _).
  pose proof (prepare_facts _ _ _ _ _ _ _ _ Hprep) as (Hlen & Hpos & Hcs0).
  assert (Hne : ~ In [] (labels self)).
  { intros Hin.
    destruct (init_empty_class ds nc sh sf ls cb cbt g _ _ Hprep Hin) as (g1 & Hi).
    rewrite Hi in Hinit. discriminate. }
  apply prepare_inv in Hprep. destruct Hprep as (_ & _ & _ & _ & _ & _ & Hchk).
  apply check_class_size_inv in Hchk. destruct Hchk as (mn & mx & Hmn & Hmx & Hr).
  pose proof (py_min_len_pos _ _ Hmn Hne) as Hmnpos.
  apply build_indices_inv in Hbuild. destruct Hbuild as (Hlenidx & _).
  unfold sampler_len. rewrite Hnc.
  repeat split; try assumption; try lia.
  - exists mn, mx. repeat split; try assumption; lia.
  - nia.
Qed.
End Passes.

Lemma every_pass_rearranges_witness :
  exists l self' g',
    pass (fst (run_passes 2 sampler8 1)) (snd (run_passes 2 sampler8 1))
    = (Some l, self', g') /\
    Permutation (indices sampler8) l /\
    len l = sampler_len sampler8 /\
    sampler_len self' = sampler_len sampler8.
Proof.
  apply (every_pass_rearranges ds8 2 true (Some (FFloat float0)) (Some flat8)
           None "single" 42 1000676753 sampler8).
  vm_compute. reflexivity.
Defined.

Lemma every_pass_is_balanced_witness :
  exists l,
    fst (fst (pass (fst (run_passes 2 sampler8 1)) (snd (run_passes 2 sampler8 1))))
    = Some l /\
    len (filter (in_class (Z.to_nat 2) flat8 1) l) = class_size sampler8.
Proof.
  apply (every_pass_is_balanced ds8 2 true (Some (FFloat float0)) flat8
           "single" 42 1000676753 sampler8).
  - reflexivity.
  - vm_compute. reflexivity.
  - cbn. lia.
Defined.

Lemma constructed_sampler_invariants_witness :
  len (indices sampler8) = sampler_len sampler8 /\ 2 <= sampler_len sampler8.
Proof.
  apply (constructed_sampler_invariants ds8 2 true (Some (FFloat float0))
           (Some flat8) None "single" 42 1000676753 sampler8).
  vm_compute. reflexivity.
Defined.

(** ** What [__build_indices] can raise *)

Lemma in_nil_decidable {A : Type} (l : list (list A)) : In [] l \/ ~ In [] l.
Proof.
  induction l as [|h t [IH|IH]].
  - right. intros [].
  - left. now right.
  - destruct h as [|a h]; [left; now left|].
    right. intros [Heq|Hin]; [discriminate | contradiction].
Qed.

Section BuildErrors.
Context {G : Type} `{RandomLaws G}.

(** Lines 124-149. Once the arguments have passed the checks of [__init__],
    building the indices succeeds when no class is empty and otherwise
    raises [ZeroDivisionError]: the assertions of lines 138 and 147 never
    fail, [random.sample] is never asked for a negative or too large sample,
    and no class lookup is out of range. *)
Theorem build_only_divides_by_zero (ds : dataset) (nc : Z) (sh : bool)
  (sf : option factor) (ls : option (list pyval)) (cb : option callback)
  (cbt : string) (g : G) (classes : list (list pyval)) (cs : Z) :
  prepare ds nc sf ls cb cbt = Ok (classes, cs) ->
  (~ In [] classes /\
   exists self g', init ds nc sh sf ls cb cbt g = (Ok self, g')) \/
  (In [] classes /\
   exists g', init ds nc sh sf ls cb cbt g = (Raise ZeroDivisionError, g')).
Proof.
  intros Hp. destruct (in_nil_decidable classes) as [Hin|Hne].
  - right. split; [exact Hin|].
    exact (init_empty_class ds nc sh sf ls cb cbt g classes cs Hp Hin).
  - left. split; [exact Hne|].
    destruct (init_ok ds nc sh sf ls cb cbt g classes cs Hp Hne)
      as (self & g' & Hi & _).
    eauto.
Qed.
End BuildErrors.

Lemma build_only_divides_by_zero_witness :
  (~ In [] classes8 /\
   exists self g',
     init ds8 2 false (Some (FInt 4)) (Some flat8) None "single" 42
     = (Ok self, g')) \/
  (In [] classes8 /\
   exists g',
     init ds8 2 false (Some (FInt 4)) (Some flat8) None "single" 42
     = (Raise ZeroDivisionError, g')).
Proof.
  apply (build_only_divides_by_zero ds8 2 false (Some (FInt 4)) (Some flat8)
           None "single" 42 classes8 4).
  vm_compute. reflexivity.
Defined.

(** ** Per-class lists of integers *)

(** Lines 86-90. Labels given as one list of dataset indices per class, the
    format the docstring describes, are never accepted when their number
    differs from the dataset length: a wrong number of lists fails the
    assertion of line 87; otherwise line 89 reads [labels[0][0]], an
    [IndexError] for an empty first list, and line 90 takes the [len] of
    that integer, a [TypeError]. *)
Theorem per_class_int_lists_rejected (ds : dataset) (nc : Z) (xs : list Z)
  (rest : list pyval) :
  length (PList (map PInt xs) :: rest) <> ds_len ds ->
  resolve_labels ds nc (PList (map PInt xs) :: rest)
  = Raise (if len (PList (map PInt xs) :: rest) =? nc
           then match xs with [] => IndexError | _ :: _ => TypeError end
           else AssertionError).
Proof.
  intros Hne. unfold resolve_labels.
  replace (Nat.eqb (length (PList (map PInt xs) :: rest)) (ds_len ds)) with false
    by (symmetry; now apply Nat.eqb_neq).
  unfold per_class_branch, py_assert.
  destruct (len (PList (map PInt xs) :: rest) =? nc) eqn:Hlen; cbn [bind];
    [|reflexivity].
  apply Z.eqb_eq in Hlen. cbn [per_class_loop].
  destruct xs as [|x xs]; [reflexivity|].
  change (py_getitem (map PInt (x :: xs)) (Z.of_nat 0)) with (Ok (PInt x)).
  cbn [bind]. rewrite repeat_length.
  assert (Hpos : (0 < Z.to_nat nc)%nat).
  { unfold len in Hlen. cbn [length] in Hlen. lia. }
  unfold py_index. cbn [Z.of_nat Z.ltb Z.compare].
  destruct (Z.leb_spec (Z.of_nat (Z.to_nat nc)) 0) as [Hle|_]; [lia|].
  reflexivity.
Qed.

Lemma per_class_int_lists_rejected_witness :
  resolve_labels ds8 3 perclass8 = Raise AssertionError.
Proof.
  apply (per_class_int_lists_rejected ds8 3 [0; 1; 2]
           [PList (map PInt [3; 4; 5; 6; 7])]).
  cbn. lia.
Defined.
